(** * SupplySight backend: the resolvers of [server.js]

    A shallow embedding of the in-memory catalog store, the status helper,
    the query resolvers ([products], [warehouses], [kpis]) and the two
    mutation resolvers ([updateDemand], [transferStock]) of
    [src/server.js], followed by the properties of the specification that
    concern them and by further properties of the resolvers.

    Conventions.
    - GraphQL [Int] values are JavaScript numbers holding integers of the
      signed 32-bit range; every arithmetic expression of the resolvers
      ([page + limit], comparisons) is exact on them, so they are modelled
      as [Z] without wrap-around.
    - GraphQL [ID] and [String] values are modelled as [string];
      [===] on them is [String.eqb].
    - The two module-level arrays [warehouses] and [products] form the
      store.  An element of [products] is a mutable object: a JavaScript
      variable bound to [products[i]] is a reference, modelled by the index
      [i], and every field read goes through the current store.
    - A resolver that can [throw] is a computation in the monad [M]: it
      takes the store and gives back an outcome together with the store
      as it is when the resolver returns or throws. *)

From Stdlib Require Import ZArith String Ascii List Lia Bool.
From stdpp Require Import base list strings.
Import ListNotations.

Local Open Scope string_scope.
Local Open Scope Z_scope.

(** ** Data model *)

Module Warehouse.
Record t : Type := mk { id : string; name : string }.
End Warehouse.

Module Product.
Record t : Type := mk {
  id : string;
  name : string;
  sku : string;
  warehouseId : string;
  stock : Z;
  demand : Z
}.

(** The three assignments of the resolvers:
    [p.demand = v], [p.warehouseId = v], [p.stock = v]. *)
Definition set_demand (v : Z) (p : t) : t :=
  mk (id p) (name p) (sku p) (warehouseId p) (stock p) v.
Definition set_warehouseId (v : string) (p : t) : t :=
  mk (id p) (name p) (sku p) v (stock p) (demand p).
Definition set_stock (v : Z) (p : t) : t :=
  mk (id p) (name p) (sku p) (warehouseId p) v (demand p).
End Product.

(** The object built by [{ ...product, warehouse: ..., status: ... }]:
    the fields of the product, the warehouse found for it ([None] is
    JavaScript's [undefined]) and the derived status. *)
Module ProductView.
Record t : Type := mk {
  id : string;
  name : string;
  sku : string;
  warehouseId : string;
  stock : Z;
  demand : Z;
  warehouse : option Warehouse.t;
  status : string
}.
End ProductView.

Record Store : Type := mkStore {
  warehouses : list Warehouse.t;
  products : list Product.t
}.

(** The seed data of lines 5-20. *)
Definition seedWarehouses : list Warehouse.t :=
  [ Warehouse.mk "BLR-A" "Bangalore Warehouse A";
    Warehouse.mk "BLR-B" "Bangalore Warehouse B";
    Warehouse.mk "PNQ-C" "Pune Warehouse C";
    Warehouse.mk "DEL-B" "Delhi Warehouse B";
    Warehouse.mk "MUM-A" "Mumbai Warehouse A" ].

Definition seedProducts : list Product.t :=
  [ Product.mk "P-1001" "12mm Hex Bolt" "HEX-12-100" "BLR-A" 180 120;
    Product.mk "P-1002" "Steel Washer" "WSR-08-500" "BLR-A" 50 80;
    Product.mk "P-1003" "M8 Nut" "NUT-08-200" "PNQ-C" 80 80;
    Product.mk "P-1004" "Bearing 608ZZ" "BRG-608-50" "DEL-B" 24 120;
    Product.mk "P-1005" "Steel Rod 10mm" "ROD-10-300" "MUM-A" 200 150;
    Product.mk "P-1006" "Aluminum Sheet" "ALU-SHT-200" "BLR-B" 75 100 ].

Definition seedStore : Store := mkStore seedWarehouses seedProducts.

(** ** Helpers of the source *)

(** [getStatus] (lines 23-27). *)
Definition getStatus (stock demand : Z) : string :=
  if stock >? demand then "healthy"
  else if stock =? demand then "low"
  else "critical".

(** [Array.prototype.find]: the first element satisfying the predicate. *)
Fixpoint find {A : Type} (f : A -> bool) (l : list A) : option A :=
  match l with
  | [] => None
  | x :: r => if f x then Some x else find f r
  end.

(** [Array.prototype.findIndex]: the index of the first element satisfying
    the predicate, [-1] when there is none. *)
Fixpoint findIndex_from {A : Type} (f : A -> bool) (l : list A) (k : Z) : Z :=
  match l with
  | [] => -1
  | x :: r => if f x then k else findIndex_from f r (k + 1)
  end.

Definition findIndex {A : Type} (f : A -> bool) (l : list A) : Z :=
  findIndex_from f l 0.

(** [arr[i]] for an integer [i]: [None] is [undefined]. *)
Definition index {A : Type} (l : list A) (i : Z) : option A :=
  if i <? 0 then None else l !! Z.to_nat i.

(** [getWarehouseById] (line 30), over the current [warehouses] array. *)
Definition getWarehouseById (ws : list Warehouse.t) (id : string)
  : option Warehouse.t :=
  find (fun w => String.eqb (Warehouse.id w) id) ws.

(** Truthiness of a value that is either an object or [undefined]. *)
Definition truthy_obj {A : Type} (o : option A) : bool :=
  match o with Some _ => true | None => false end.

(** ** Resolvers as store computations *)

(** The errors a resolver throws.  The first four are the [new Error(...)]
    of the mutation resolvers, with the values interpolated in their
    messages; [TypeError] is what the JavaScript runtime throws on a
    property access or a destructuring of [undefined] or [null].
    - [ProductNotFound id]: [Product with id ${productId} not found]
    - [NotInWarehouse w]:
      [Product is not currently in warehouse ${fromWarehouse}]
    - [WarehouseNotFound w]: [Warehouse ${toWarehouse} not found]
    - [InsufficientStock q s]:
      [Cannot transfer ${quantity} items. Only ${product.stock} available
      in stock] *)
Inductive Error : Type :=
| ProductNotFound (productId : string)
| NotInWarehouse (fromWarehouse : string)
| WarehouseNotFound (toWarehouse : string)
| InsufficientStock (quantity stock : Z)
| TypeError.

Inductive outcome (A : Type) : Type :=
| Returned (a : A)
| Thrown (e : Error).
Arguments Returned {A} a.
Arguments Thrown {A} e.

Definition M (A : Type) : Type := Store -> outcome A * Store.

Definition ret {A : Type} (a : A) : M A := fun st => (Returned a, st).

Definition throw {A : Type} (e : Error) : M A := fun st => (Thrown e, st).

Definition bind {A B : Type} (m : M A) (k : A -> M B) : M B :=
  fun st =>
    match m st with
    | (Returned a, st') => k a st'
    | (Thrown e, st') => (Thrown e, st')
    end.

(** Reading the module-level arrays. *)
Definition gets {A : Type} (f : Store -> A) : M A :=
  fun st => (Returned (f st), st).

(** [products[ref].field]: a read through the reference [ref]. *)
Definition read {A : Type} (ref : Z) (field : Product.t -> A) : M A :=
  fun st =>
    match index (products st) ref with
    | Some p => (Returned (field p), st)
    | None => (Thrown TypeError, st)
    end.

(** [products[ref].field = v]: the object at [ref] is updated in place;
    the array keeps its length and its other elements. *)
Definition assign (ref : Z) (setter : Product.t -> Product.t) : M unit :=
  fun st =>
    match index (products st) ref with
    | Some p =>
        (Returned tt,
         mkStore (warehouses st) (<[Z.to_nat ref := setter p]> (products st)))
    | None => (Thrown TypeError, st)
    end.

Declare Scope store_scope.
Delimit Scope store_scope with store.
Notation "'let!' x ':=' m 'in' k" := (bind m (fun x => k))
  (at level 10, x name, m at level 100, k at level 200) : store_scope.
Notation "'do!' m 'in' k" := (bind m (fun _ => k))
  (at level 10, m at level 100, k at level 200) : store_scope.
Local Open Scope store_scope.

(** [{ ...p, warehouse: w, status: s }]. *)
Definition spread (p : Product.t) (w : option Warehouse.t) (s : string)
  : ProductView.t :=
  ProductView.mk (Product.id p) (Product.name p) (Product.sku p)
    (Product.warehouseId p) (Product.stock p) (Product.demand p) w s.

Module Mutation.

(** [updateDemand] (lines 162-176). *)
Definition updateDemand (productId : string) (demand : Z)
  : M ProductView.t :=
  let! productIndex :=
    gets (fun st =>
            findIndex (fun p => String.eqb (Product.id p) productId)
              (products st)) in
  if productIndex =? -1 then throw (ProductNotFound productId) else
  do! assign productIndex (Product.set_demand demand) in
  let! obj := read productIndex (fun p => p) in
  let! wid := read productIndex Product.warehouseId in
  let! warehouse := gets (fun st => getWarehouseById (warehouses st) wid) in
  let! stock := read productIndex Product.stock in
  ret (spread obj warehouse (getStatus stock demand)).

(** [transferStock] (lines 178-212).  [product] is bound to the object
    [products[productIndex]] itself, so [product.demand] on line 208 is
    read from the store after the two assignments. *)
Definition transferStock
    (productId fromWarehouse toWarehouse : string) (quantity : Z)
  : M ProductView.t :=
  let! productIndex :=
    gets (fun st =>
            findIndex (fun p => String.eqb (Product.id p) productId)
              (products st)) in
  if productIndex =? -1 then throw (ProductNotFound productId) else
  let product := productIndex in
  let! wid := read product Product.warehouseId in
  if negb (String.eqb wid fromWarehouse)
  then throw (NotInWarehouse fromWarehouse) else
  let! target :=
    gets (fun st => getWarehouseById (warehouses st) toWarehouse) in
  if negb (truthy_obj target)
  then throw (WarehouseNotFound toWarehouse) else
  let! stock := read product Product.stock in
  if quantity >? stock
  then throw (InsufficientStock quantity stock) else
  do! assign productIndex (Product.set_warehouseId toWarehouse) in
  do! assign productIndex (Product.set_stock quantity) in
  let! obj := read productIndex (fun p => p) in
  let! warehouse :=
    gets (fun st => getWarehouseById (warehouses st) toWarehouse) in
  let! demand := read product Product.demand in
  ret (spread obj warehouse (getStatus quantity demand)).

End Mutation.

(** ** The [products] query *)

(** An optional GraphQL input value as the resolver sees it: the key is
    missing ([undefined]), explicitly [null], or given. *)
Inductive arg (A : Type) : Type :=
| Absent
| Null
| Given (a : A).
Arguments Absent {A}.
Arguments Null {A}.
Arguments Given {A} a.

Module ProductFilters.
Record t : Type := mk {
  search : arg string;
  warehouseId : arg string;
  status : arg string
}.
(** The default [{}] of the parameter. *)
Definition empty : t := mk Absent Absent Absent.
End ProductFilters.

Module PaginationInput.
Record t : Type := mk { page : arg Z; limit : arg Z }.
Definition empty : t := mk Absent Absent.
End PaginationInput.

Module PageInfo.
Record t : Type := mk { hasNextPage : bool; hasPreviousPage : bool }.
End PageInfo.

(** The GraphQL type [KPI]: one point of the series of [kpis]. *)
Module KPI.
Record t : Type := mk { date : string; stock : Z; demand : Z }.
End KPI.

Module ProductConnection.
Record t : Type := mk {
  items : list ProductView.t;
  total : Z;
  pageInfo : PageInfo.t
}.
End ProductConnection.

(** A parameter [{ x = dflt }] that is then destructured: the default
    replaces [undefined] only, and destructuring [null] throws. *)
Definition destructured {A : Type} (dflt : A) (a : arg A) : outcome A :=
  match a with
  | Absent => Returned dflt
  | Null => Thrown TypeError
  | Given x => Returned x
  end.

(** A numeric field destructured with a default, as a number: the default
    replaces [undefined] only, and [null] is [0] in [+], in [<] and [>],
    and as an argument of [slice]. *)
Definition number_or (dflt : Z) (a : arg Z) : Z :=
  match a with
  | Absent => dflt
  | Null => 0
  | Given n => n
  end.

(** [if (s) { l = f(s, l) }] for an optional string [s]: [undefined],
    [null] and the empty string are falsy. *)
Definition if_truthy {B : Type} (a : arg string) (f : string -> B -> B)
    (l : B) : B :=
  match a with
  | Given s => if String.eqb s EmptyString then l else f s l
  | _ => l
  end.

(** [String.prototype.includes]: [sub] occurs in [s]. *)
Fixpoint includes (s sub : string) : bool :=
  String.prefix sub s
  || match s with
     | EmptyString => false
     | String _ s' => includes s' sub
     end.

(** [Array.prototype.slice(start, end)] for integer arguments: a negative
    argument counts from the end of the array, both are clamped to
    [0 .. length], and the result is empty when the end does not exceed
    the start. *)
Definition slice {A : Type} (l : list A) (start end_ : Z) : list A :=
  let len := Z.of_nat (length l) in
  let k := if start <? 0 then Z.max (len + start) 0 else Z.min start len in
  let final := if end_ <? 0 then Z.max (len + end_) 0 else Z.min end_ len in
  take (Z.to_nat (Z.max (final - k) 0)) (drop (Z.to_nat k) l).

Module Query.
Section WithCaseMapping.

(** [String.prototype.toLowerCase], a built-in of the runtime. *)
Variable toLowerCase : string -> string.

(** [products] (lines 92-132).  The [console.log] of line 119 writes to the
    process output only; it touches neither the store nor the result. *)
Definition products (st : Store)
    (filters : arg ProductFilters.t) (pagination : arg PaginationInput.t)
  : outcome ProductConnection.t :=
  match destructured ProductFilters.empty filters with
  | Thrown e => Thrown e
  | Returned filters =>
  match destructured PaginationInput.empty pagination with
  | Thrown e => Thrown e
  | Returned pagination =>
    let search := ProductFilters.search filters in
    let warehouseId := ProductFilters.warehouseId filters in
    let status := ProductFilters.status filters in
    let page := number_or 0 (PaginationInput.page pagination) in
    let limit := number_or 100 (PaginationInput.limit pagination) in
    let filtered :=
      map (fun product =>
             spread product
               (getWarehouseById (warehouses st) (Product.warehouseId product))
               (getStatus (Product.stock product) (Product.demand product)))
          (products st) in
    let filtered :=
      if_truthy search
        (fun search filtered =>
           let searchLower := toLowerCase search in
           List.filter
             (fun p =>
                includes (toLowerCase (ProductView.name p)) searchLower
                || includes (toLowerCase (ProductView.sku p)) searchLower)
             filtered)
        filtered in
    let filtered :=
      if_truthy warehouseId
        (fun warehouseId filtered =>
           List.filter
             (fun p => String.eqb (ProductView.warehouseId p) warehouseId)
             filtered)
        filtered in
    let filtered :=
      if_truthy status
        (fun status filtered =>
           List.filter (fun p => String.eqb (ProductView.status p) status)
             filtered)
        filtered in
    let total := Z.of_nat (length filtered) in
    let items := slice filtered page (page + limit) in
    Returned
      (ProductConnection.mk items total
         (PageInfo.mk (page + limit <? total) (page >? 0)))
  end end.

End WithCaseMapping.

(** [warehouses] (lines 134-136). *)
Definition warehouses (st : Store) : list Warehouse.t := warehouses st.

Section WithRuntime.

(** What [kpis] asks of the runtime, each request answered from the state
    of the world (the clock, the random generator) and changing it:
    - [isoDateDaysAgo i]: [new Date()], then [setDate(getDate() - i)], then
      [toISOString().split('T')[0]], the date string of the day [i] days
      before the moment of the request;
    - [floorRandom n]: [Math.floor(Math.random() * n)]. *)
Variable World : Type.
Variable isoDateDaysAgo : Z -> World -> string * World.
Variable floorRandom : Z -> World -> Z * World.

(** The loop [for (let i = days - 1; i >= 0; i--)] with [n = i + 1]
    iterations left and the array [kpis] built so far. *)
Fixpoint kpis_loop (n : nat) (kpis : list KPI.t) (w : World)
  : list KPI.t * World :=
  match n with
  | O => (kpis, w)
  | S m =>
      let i := Z.of_nat m in
      let (date, w1) := isoDateDaysAgo i w in
      let (r1, w2) := floorRandom 100 w1 in
      let baseStock := 300 + r1 in
      let (r2, w3) := floorRandom 80 w2 in
      let baseDemand := 250 + r2 in
      kpis_loop m (kpis ++ [KPI.mk date baseStock baseDemand])%list w3
  end.

(** [kpis] (lines 138-158). *)
Definition kpis (range : string) (w : World) : list KPI.t * World :=
  let days :=
    if String.eqb range "7d" then 7
    else if String.eqb range "14d" then 14 else 30 in
  kpis_loop (Z.to_nat days) [] w.

End WithRuntime.
End Query.

(** A runtime to run [kpis] on: the state of the world is a counter, the
    [k]-th random request for a bound [n] is answered [k mod n], and the
    date of the day [i] days ago is written [today] for [i = 0] and
    [earlier] otherwise. *)
Definition counter_floorRandom (n : Z) (w : nat) : Z * nat :=
  (Z.of_nat w mod n, S w).

Definition day_label (i : Z) : string :=
  if i =? 0 then "today" else "earlier".

Definition counter_isoDateDaysAgo (i : Z) (w : nat) : string * nat :=
  (day_label i, w).

(** A case mapping to run the query on the seed data: the letters [A]-[Z]
    go to [a]-[z], every other character is kept. *)
Definition ascii_lower (c : ascii) : ascii :=
  let n := nat_of_ascii c in
  if ((65 <=? n)%nat && (n <=? 90)%nat)%bool then ascii_of_nat (n + 32) else c.

Fixpoint ascii_toLowerCase (s : string) : string :=
  match s with
  | EmptyString => EmptyString
  | String c r => String (ascii_lower c) (ascii_toLowerCase r)
  end.

(** ** Calls and traces *)

(** A mutation request, and the store computation it stands for. *)
Inductive call : Type :=
| UpdateDemand (productId : string) (demand : Z)
| TransferStock (productId fromWarehouse toWarehouse : string) (quantity : Z).

Definition run (c : call) : M ProductView.t :=
  match c with
  | UpdateDemand productId demand => Mutation.updateDemand productId demand
  | TransferStock productId fromWarehouse toWarehouse quantity =>
      Mutation.transferStock productId fromWarehouse toWarehouse quantity
  end.

(** The store after a sequence of requests, each served to completion
    (returning or throwing) before the next one. *)
Fixpoint run_calls (cs : list call) (st : Store) : Store :=
  match cs with
  | [] => st
  | c :: r => run_calls r (snd (run c st))
  end.

(** ** Predicates of the specification *)

(** [has_id productId p]: the test of the two [findIndex] calls. *)
Definition has_id (productId : string) (p : Product.t) : bool :=
  String.eqb (Product.id p) productId.

(** [x] is the first element of [l] satisfying [f], at position [n]. *)
Definition first_match {A : Type} (f : A -> bool) (l : list A)
    (n : nat) (x : A) : Prop :=
  l !! n = Some x /\ f x = true
  /\ forall (j : nat) (y : A), (j < n)%nat -> l !! j = Some y -> f y = false.

Definition product_exists (st : Store) (productId : string) : Prop :=
  exists p, p ∈ products st /\ Product.id p = productId.

Definition warehouse_exists (st : Store) (id : string) : Prop :=
  exists w, w ∈ warehouses st /\ Warehouse.id w = id.

(** Product ids are unique in the store. *)
Definition unique_ids (st : Store) : Prop :=
  NoDup (Product.id <$> products st).

(** Every product's stock and demand are non-negative. *)
Definition nonneg_store (st : Store) : Prop :=
  forall p, p ∈ products st -> 0 <= Product.stock p /\ 0 <= Product.demand p.

(** Every product's [warehouseId] is the id of a warehouse of the store. *)
Definition warehouses_resolve (st : Store) : Prop :=
  forall p, p ∈ products st -> warehouse_exists st (Product.warehouseId p).

(** The numeric arguments of a request are non-negative. *)
Definition nonneg_args (c : call) : Prop :=
  match c with
  | UpdateDemand _ demand => 0 <= demand
  | TransferStock _ _ _ quantity => 0 <= quantity
  end.

(** A request either leaves the store as it is, or replaces one product [p]
    by a product [p'] with the same id: [p] with a new demand for
    [updateDemand]; [p] with a new warehouseId, the id of an existing
    warehouse, and a new stock, at most the old one, for [transferStock]. *)
Definition rewrites (c : call) (st : Store) (p p' : Product.t) : Prop :=
  match c with
  | UpdateDemand _ demand => p' = Product.set_demand demand p
  | TransferStock _ _ toWarehouse quantity =>
      p' = Product.set_stock quantity (Product.set_warehouseId toWarehouse p)
      /\ warehouse_exists st toWarehouse
      /\ quantity <= Product.stock p
  end.

(** The product id a request addresses. *)
Definition call_id (c : call) : string :=
  match c with
  | UpdateDemand productId _ => productId
  | TransferStock productId _ _ _ => productId
  end.

(** What a request writes in place of the product [p] it addresses, given
    the warehouses of the store; [None] when the request is refused. *)
Definition effect (c : call) (ws : list Warehouse.t) (p : Product.t)
  : option Product.t :=
  match c with
  | UpdateDemand _ demand => Some (Product.set_demand demand p)
  | TransferStock _ fromWarehouse toWarehouse quantity =>
      if negb (String.eqb (Product.warehouseId p) fromWarehouse) then None
      else match getWarehouseById ws toWarehouse with
           | None => None
           | Some _ =>
               if quantity >? Product.stock p then None
               else Some (Product.set_stock quantity
                            (Product.set_warehouseId toWarehouse p))
           end
  end.

(** Two requests are independent when they address different product ids,
    or when one updates a demand and the other transfers stock. *)
Definition independent (c1 c2 : call) : Prop :=
  call_id c1 <> call_id c2
  \/ match c1, c2 with
     | UpdateDemand _ _, TransferStock _ _ _ _ => True
     | TransferStock _ _ _ _, UpdateDemand _ _ => True
     | _, _ => False
     end.

(** ** The filtered sequence and its pages *)

(** The value a filter field filters by, if any: a missing, [null] or
    empty field does not filter. *)
Definition filter_value (a : arg string) : option string :=
  match a with
  | Given s => if String.eqb s EmptyString then None else Some s
  | _ => None
  end.

(** Every product joined to its warehouse and status, in store order. *)
Definition joined (st : Store) : list ProductView.t :=
  map (fun product =>
         spread product
           (getWarehouseById (warehouses st) (Product.warehouseId product))
           (getStatus (Product.stock product) (Product.demand product)))
      (products st).

(** The contiguous slice of [l] starting at offset [page], of length at
    most [limit], for non-negative [page] and [limit]. *)
Definition page_of {A : Type} (l : list A) (page limit : Z) : list A :=
  take (Z.to_nat limit) (drop (Z.to_nat page) l).

(** The filters and the pagination of a request whose [filters] and
    [pagination] arguments are objects or are left out. *)
Definition filters_of (a : arg ProductFilters.t) : ProductFilters.t :=
  match a with Given f => f | _ => ProductFilters.empty end.

Definition pagination_of (a : arg PaginationInput.t) : PaginationInput.t :=
  match a with Given p => p | _ => PaginationInput.empty end.

Definition page_number (a : arg PaginationInput.t) : Z :=
  number_or 0 (PaginationInput.page (pagination_of a)).

Definition limit_number (a : arg PaginationInput.t) : Z :=
  number_or 100 (PaginationInput.limit (pagination_of a)).

(** The value of an optional integer field as the specification reads it:
    the integer given, the default when the field is left out.  A field
    given as [null] has no value here. *)
Definition field_value (dflt : Z) (a : arg Z) : option Z :=
  match a with
  | Absent => Some dflt
  | Null => None
  | Given n => Some n
  end.

(** A joined product passes the filters: the search text occurs in its
    name or in its sku, both sides in lower case; its warehouseId is the
    one asked for; its status is the one asked for. *)
Definition passes (toLowerCase : string -> string)
    (filters : ProductFilters.t) (p : ProductView.t) : bool :=
  match filter_value (ProductFilters.search filters) with
  | Some s =>
      includes (toLowerCase (ProductView.name p)) (toLowerCase s)
      || includes (toLowerCase (ProductView.sku p)) (toLowerCase s)
  | None => true
  end
  && (match filter_value (ProductFilters.warehouseId filters) with
      | Some w => String.eqb (ProductView.warehouseId p) w
      | None => true
      end
      && match filter_value (ProductFilters.status filters) with
         | Some s => String.eqb (ProductView.status p) s
         | None => true
         end).

(** The filtered sequence: the joined products that pass the filters. *)
Definition filtered (toLowerCase : string -> string) (st : Store)
    (filters : ProductFilters.t) : list ProductView.t :=
  List.filter (passes toLowerCase filters) (joined st).

(** The items returned at offset [page] with the given [limit], the empty
    list standing for a resolver that throws; and the [hasNextPage] flag of
    that query. *)
Definition items_at (toLowerCase : string -> string) (st : Store)
    (fa : arg ProductFilters.t) (page limit : Z) : list ProductView.t :=
  match Query.products toLowerCase st fa
          (Given (PaginationInput.mk (Given page) (Given limit))) with
  | Returned conn => ProductConnection.items conn
  | Thrown _ => []
  end.

Definition hasNextPage_at (toLowerCase : string -> string) (st : Store)
    (fa : arg ProductFilters.t) (page limit : Z) : option bool :=
  match Query.products toLowerCase st fa
          (Given (PaginationInput.mk (Given page) (Given limit))) with
  | Returned conn =>
      Some (PageInfo.hasNextPage (ProductConnection.pageInfo conn))
  | Thrown _ => None
  end.

(** ** Arrays *)

Section Arrays.
Context {A : Type}.
Implicit Types (f : A -> bool) (l : list A).

Lemma index_of_nat l (n : nat) : index l (Z.of_nat n) = l !! n.
Proof.
  unfold index. destruct (Z.ltb_spec (Z.of_nat n) 0) as [H | H]; [lia |].
  now rewrite Nat2Z.id.
Qed.

Lemma index_insert l (n : nat) x :
  (n < length l)%nat -> index (<[n := x]> l) (Z.of_nat n) = Some x.
Proof. intros H. rewrite index_of_nat. now apply list_lookup_insert_eq. Qed.

Lemma findIndex_from_cases f l k :
  (findIndex_from f l k = -1 /\ forall x, x ∈ l -> f x = false)
  \/ (exists n x, findIndex_from f l k = k + Z.of_nat n
                  /\ first_match f l n x).
Proof.
  revert k. induction l as [| a l IH]; intros k; simpl.
  - left. split; [reflexivity |]. intros x Hx. inversion Hx.
  - destruct (f a) eqn:Hfa.
    + right. exists 0%nat, a. split; [lia |].
      repeat split; auto. intros j y Hj. lia.
    + destruct (IH (k + 1))
        as [[Hnone Hall] | (n & x & Hidx & Hl & Hfx & Hbefore)].
      * left. split; [exact Hnone |].
        intros x Hx. apply elem_of_cons in Hx as [-> | Hx]; auto.
      * right. exists (S n), x. split; [lia |].
        repeat split; auto.
        intros [| j] y Hj Hy; simpl in Hy.
        -- congruence.
        -- apply (Hbefore j); [lia | exact Hy].
Qed.

(** [findIndex] gives [-1] when no element passes the test, and the
    position of the first element that passes it otherwise. *)
Lemma findIndex_cases f l :
  (findIndex f l = -1 /\ forall x, x ∈ l -> f x = false)
  \/ (exists n x, findIndex f l = Z.of_nat n /\ first_match f l n x).
Proof.
  unfold findIndex.
  destruct (findIndex_from_cases f l 0) as [H | (n & x & Hidx & Hm)].
  - left. exact H.
  - right. exists n, x. split; [lia | exact Hm].
Qed.

Lemma first_match_functional f l n x m y :
  first_match f l n x -> first_match f l m y -> n = m /\ x = y.
Proof.
  intros (Hn & Hfx & Hbn) (Hm & Hfy & Hbm).
  assert (n = m) as ->.
  { destruct (Nat.lt_trichotomy n m) as [Hlt | [Heq | Hgt]]; [| exact Heq |].
    - specialize (Hbm n x Hlt Hn). congruence.
    - specialize (Hbn m y Hgt Hm). congruence. }
  split; [reflexivity | congruence].
Qed.

Lemma first_match_elem f l n x : first_match f l n x -> x ∈ l.
Proof. intros (Hn & _). eapply list_elem_of_lookup_2, Hn. Qed.

Lemma find_None f l : find f l = None <-> forall x, x ∈ l -> f x = false.
Proof.
  induction l as [| a l IH]; simpl.
  - split; [| reflexivity]. intros _ x Hx. inversion Hx.
  - destruct (f a) eqn:Hfa.
    + split; [discriminate |]. intros H.
      specialize (H a (list_elem_of_here a l)). congruence.
    + rewrite IH. split.
      * intros H x Hx. apply elem_of_cons in Hx as [-> | Hx]; auto.
      * intros H x Hx. apply H. now apply list_elem_of_further.
Qed.

Lemma find_Some f l x : find f l = Some x -> x ∈ l /\ f x = true.
Proof.
  induction l as [| a l IH]; simpl; [discriminate |].
  destruct (f a) eqn:Hfa.
  - intros [= <-]. split; [apply list_elem_of_here | exact Hfa].
  - intros H. destruct (IH H) as [Hin Hfx].
    split; [now apply list_elem_of_further | exact Hfx].
Qed.
End Arrays.

Lemma findIndex_first_match {A : Type} (f : A -> bool) (l : list A) n x :
  first_match f l n x -> findIndex f l = Z.of_nat n.
Proof.
  intros Hm.
  destruct (findIndex_cases f l) as [[_ Hall] | (m & y & Hidx & Hm')].
  - pose proof (first_match_elem _ _ _ _ Hm) as Hin.
    destruct Hm as (_ & Hfx & _). rewrite (Hall x Hin) in Hfx. discriminate.
  - destruct (first_match_functional _ _ _ _ _ _ Hm Hm') as [-> _]. exact Hidx.
Qed.

Lemma findIndex_none {A : Type} (f : A -> bool) (l : list A) :
  (forall x, x ∈ l -> f x = false) -> findIndex f l = -1.
Proof.
  intros Hall. destruct (findIndex_cases f l) as [[H _] | (n & x & _ & Hm)].
  - exact H.
  - pose proof (first_match_elem _ _ _ _ Hm) as Hin.
    destruct Hm as (_ & Hfx & _). rewrite (Hall x Hin) in Hfx. discriminate.
Qed.

Lemma has_id_true productId p :
  has_id productId p = true <-> Product.id p = productId.
Proof. unfold has_id. apply String.eqb_eq. Qed.

Lemma has_id_false productId p :
  has_id productId p = false <-> Product.id p <> productId.
Proof. unfold has_id. apply String.eqb_neq. Qed.

(** [getWarehouseById] finds a warehouse exactly when one has the id, and
    the warehouse found has that id. *)
Lemma getWarehouseById_None st id :
  getWarehouseById (warehouses st) id = None <-> ~ warehouse_exists st id.
Proof.
  unfold getWarehouseById, warehouse_exists. rewrite find_None. split.
  - intros Hall (w & Hin & Hid). specialize (Hall w Hin). simpl in Hall.
    apply String.eqb_neq in Hall. contradiction.
  - intros Hno w Hin. apply String.eqb_neq. intros Hid. apply Hno. eauto.
Qed.

Lemma getWarehouseById_Some st id w :
  getWarehouseById (warehouses st) id = Some w ->
  w ∈ warehouses st /\ Warehouse.id w = id.
Proof.
  unfold getWarehouseById. intros H. apply find_Some in H as [Hin Hid].
  split; [exact Hin | now apply String.eqb_eq].
Qed.

Lemma getWarehouseById_exists st id :
  warehouse_exists st id
  <-> exists w, getWarehouseById (warehouses st) id = Some w.
Proof.
  destruct (getWarehouseById (warehouses st) id) as [w |] eqn:Hw.
  - split; [eauto |]. intros _. exists w. eapply getWarehouseById_Some, Hw.
  - apply getWarehouseById_None in Hw. split; [contradiction |].
    intros [w Hw']. discriminate.
Qed.

(** ** The runs of the two mutations *)

(** Reads and writes through the reference [Z.of_nat n], given
    [Hn : products st !! n = Some p] and [Hlt : n < length (products st)]. *)
Ltac through_reference Hn Hlt :=
  repeat first
    [ rewrite index_insert by (rewrite ?length_insert; exact Hlt)
    | rewrite index_of_nat, Hn
    | rewrite Nat2Z.id
    | progress cbn [products warehouses truthy_obj negb]
    | progress cbv beta iota ].

Section Runs.
Variable st : Store.
Variable productId : string.

Lemma updateDemand_unknown demand :
  findIndex (has_id productId) (products st) = -1 ->
  Mutation.updateDemand productId demand st
  = (Thrown (ProductNotFound productId), st).
Proof.
  intros Hidx. unfold Mutation.updateDemand, bind, gets.
  change (fun p : Product.t => String.eqb (Product.id p) productId)
    with (has_id productId).
  now rewrite Hidx.
Qed.

Lemma updateDemand_known demand n p :
  first_match (has_id productId) (products st) n p ->
  Mutation.updateDemand productId demand st
  = (Returned
       (spread (Product.set_demand demand p)
          (getWarehouseById (warehouses st) (Product.warehouseId p))
          (getStatus (Product.stock p) demand)),
     mkStore (warehouses st)
       (<[n := Product.set_demand demand p]> (products st))).
Proof.
  intros Hm. pose proof (findIndex_first_match _ _ _ _ Hm) as Hidx.
  destruct Hm as (Hn & _ & _).
  pose proof (lookup_lt_Some _ _ _ Hn) as Hlt.
  unfold Mutation.updateDemand, bind, gets, read, assign, ret.
  change (fun p : Product.t => String.eqb (Product.id p) productId)
    with (has_id productId).
  rewrite Hidx.
  destruct (Z.eqb_spec (Z.of_nat n) (-1)) as [Hneg | _]; [lia |].
  through_reference Hn Hlt. reflexivity.
Qed.

Lemma transferStock_unknown fromWarehouse toWarehouse quantity :
  findIndex (has_id productId) (products st) = -1 ->
  Mutation.transferStock productId fromWarehouse toWarehouse quantity st
  = (Thrown (ProductNotFound productId), st).
Proof.
  intros Hidx. unfold Mutation.transferStock, bind, gets.
  change (fun p : Product.t => String.eqb (Product.id p) productId)
    with (has_id productId).
  now rewrite Hidx.
Qed.

Lemma transferStock_known fromWarehouse toWarehouse quantity n p :
  first_match (has_id productId) (products st) n p ->
  Mutation.transferStock productId fromWarehouse toWarehouse quantity st
  = if negb (String.eqb (Product.warehouseId p) fromWarehouse)
    then (Thrown (NotInWarehouse fromWarehouse), st)
    else match getWarehouseById (warehouses st) toWarehouse with
         | None => (Thrown (WarehouseNotFound toWarehouse), st)
         | Some w =>
             if quantity >? Product.stock p
             then (Thrown (InsufficientStock quantity (Product.stock p)), st)
             else
               let p' :=
                 Product.set_stock quantity
                   (Product.set_warehouseId toWarehouse p) in
               (Returned
                  (spread p' (Some w)
                     (getStatus quantity (Product.demand p))),
                mkStore (warehouses st) (<[n := p']> (products st)))
         end.
Proof.
  intros Hm. pose proof (findIndex_first_match _ _ _ _ Hm) as Hidx.
  destruct Hm as (Hn & _ & _).
  pose proof (lookup_lt_Some _ _ _ Hn) as Hlt.
  unfold Mutation.transferStock, bind, gets, read, assign, ret, throw.
  change (fun p : Product.t => String.eqb (Product.id p) productId)
    with (has_id productId).
  rewrite Hidx.
  destruct (Z.eqb_spec (Z.of_nat n) (-1)) as [Hneg | _]; [lia |].
  through_reference Hn Hlt.
  destruct (negb (String.eqb (Product.warehouseId p) fromWarehouse));
    [reflexivity |].
  destruct (getWarehouseById (warehouses st) toWarehouse) as [w |] eqn:Hw;
    [| reflexivity].
  through_reference Hn Hlt.
  destruct (quantity >? Product.stock p); [reflexivity |].
  through_reference Hn Hlt.
  rewrite Hw, list_insert_insert_eq. reflexivity.
Qed.
End Runs.

(** ** Which product a request addresses *)

Lemma product_exists_first st productId :
  product_exists st productId <->
  exists n p, first_match (has_id productId) (products st) n p.
Proof.
  split.
  - intros (q & Hin & Hid).
    destruct (findIndex_cases (has_id productId) (products st))
      as [[_ Hall] | (n & p & _ & Hm)].
    + specialize (Hall q Hin). apply has_id_false in Hall. contradiction.
    + eauto.
  - intros (n & p & Hm). exists p. split.
    + eapply first_match_elem, Hm.
    + apply has_id_true. apply Hm.
Qed.

Lemma no_product_findIndex st productId :
  ~ product_exists st productId ->
  findIndex (has_id productId) (products st) = -1.
Proof.
  intros Hno. apply findIndex_none. intros p Hin.
  apply has_id_false. intros Hid. apply Hno. exists p. auto.
Qed.

(** Where ids are unique, a product is the first one with its id. *)
Lemma unique_ids_first st n p :
  unique_ids st -> products st !! n = Some p ->
  first_match (has_id (Product.id p)) (products st) n p.
Proof.
  intros Huniq Hn. repeat split; [exact Hn | now apply has_id_true |].
  intros j y Hj Hy. apply has_id_false. intros Hid.
  assert (j = n) as Hjn; [| lia].
  apply (NoDup_lookup (Product.id <$> products st) j n (Product.id p) Huniq).
  - rewrite list_lookup_fmap, Hy. simpl. now rewrite Hid.
  - now rewrite list_lookup_fmap, Hn.
Qed.

Lemma seedStore_unique_ids : unique_ids seedStore.
Proof.
  unfold unique_ids. apply (bool_decide_unpack _). vm_compute. exact I.
Qed.

(** ** transferStock *)

(** C1: in a store with unique product ids, for every product [p] whose id
    is [productId] and whose warehouseId is [fromWarehouse], with
    [toWarehouse] the id of an existing warehouse and [quantity] at most
    the stock of [p], [transferStock] returns; in the store it leaves, the
    product has [warehouseId = toWarehouse] and [stock = quantity] (the
    quantity itself, not the difference) and its other fields, demand
    included, as before; the result is that product joined with the
    warehouse found for [toWarehouse] and with status
    [getStatus quantity demand]. *)
Theorem transferStock_relocates :
  forall st productId fromWarehouse toWarehouse quantity n p,
    unique_ids st ->
    products st !! n = Some p ->
    Product.id p = productId ->
    Product.warehouseId p = fromWarehouse ->
    warehouse_exists st toWarehouse ->
    quantity <= Product.stock p ->
    let p' := Product.mk (Product.id p) (Product.name p) (Product.sku p)
                toWarehouse quantity (Product.demand p) in
    exists w,
      w ∈ warehouses st /\ Warehouse.id w = toWarehouse
      /\ getWarehouseById (warehouses st) toWarehouse = Some w
      /\ Mutation.transferStock productId fromWarehouse toWarehouse quantity st
         = (Returned
              (ProductView.mk (Product.id p) (Product.name p) (Product.sku p)
                 toWarehouse quantity (Product.demand p) (Some w)
                 (getStatus quantity (Product.demand p))),
            mkStore (warehouses st) (<[n := p']> (products st)))
      /\ <[n := p']> (products st) !! n = Some p'.
Proof.
  intros st productId fromWarehouse toWarehouse quantity n p
    Huniq Hn Hid Hfrom Hto Hq p'.
  apply getWarehouseById_exists in Hto as [w Hw].
  destruct (getWarehouseById_Some _ _ _ Hw) as [Hin Hwid].
  exists w. repeat split; auto.
  - pose proof (unique_ids_first st n p Huniq Hn) as Hm. rewrite Hid in Hm.
    rewrite (transferStock_known st productId _ _ _ n p Hm).
    rewrite Hfrom, String.eqb_refl, Hw. cbn [negb].
    destruct (Z.gtb_spec quantity (Product.stock p)) as [Hgt | _]; [lia |].
    reflexivity.
  - apply list_lookup_insert_eq. eapply lookup_lt_Some, Hn.
Qed.

Lemma transferStock_relocates_witness :
  exists w,
    w ∈ warehouses seedStore /\ Warehouse.id w = "BLR-B"
    /\ getWarehouseById (warehouses seedStore) "BLR-B" = Some w
    /\ Mutation.transferStock "P-1001" "BLR-A" "BLR-B" 100 seedStore
       = (Returned
            (ProductView.mk "P-1001" "12mm Hex Bolt" "HEX-12-100"
               "BLR-B" 100 120 (Some w) (getStatus 100 120)),
          mkStore (warehouses seedStore)
            (<[0%nat := Product.mk "P-1001" "12mm Hex Bolt" "HEX-12-100"
                          "BLR-B" 100 120]> (products seedStore)))
    /\ <[0%nat := Product.mk "P-1001" "12mm Hex Bolt" "HEX-12-100"
                    "BLR-B" 100 120]> (products seedStore) !! 0%nat
       = Some (Product.mk "P-1001" "12mm Hex Bolt" "HEX-12-100"
                 "BLR-B" 100 120).
Proof.
  apply (transferStock_relocates seedStore "P-1001" "BLR-A" "BLR-B" 100 0%nat
           (Product.mk "P-1001" "12mm Hex Bolt" "HEX-12-100" "BLR-A" 180 120)).
  - exact seedStore_unique_ids.
  - reflexivity.
  - reflexivity.
  - reflexivity.
  - exists (Warehouse.mk "BLR-B" "Bangalore Warehouse B"). split.
    + apply list_elem_of_further, list_elem_of_here.
    + reflexivity.
  - simpl. lia.
Defined.

(** C2: [transferStock] fails exactly in four cases, tested in this order:
    no product has the id ([ProductNotFound]); the product addressed, the
    first one with the id, is not in [fromWarehouse] ([NotInWarehouse]); no
    warehouse has the id [toWarehouse] ([WarehouseNotFound]); [quantity]
    exceeds the stock of the product ([InsufficientStock]).  Each case is
    reached only when the earlier ones do not apply, and when none applies
    the call returns. *)
Theorem transferStock_fails_iff :
  forall st productId fromWarehouse toWarehouse quantity,
    let r :=
      fst (Mutation.transferStock productId fromWarehouse toWarehouse
             quantity st) in
    (~ product_exists st productId -> r = Thrown (ProductNotFound productId))
    /\ (forall n p,
          first_match (has_id productId) (products st) n p ->
          (Product.warehouseId p <> fromWarehouse ->
           r = Thrown (NotInWarehouse fromWarehouse))
          /\ (Product.warehouseId p = fromWarehouse ->
              ~ warehouse_exists st toWarehouse ->
              r = Thrown (WarehouseNotFound toWarehouse))
          /\ (Product.warehouseId p = fromWarehouse ->
              warehouse_exists st toWarehouse ->
              quantity > Product.stock p ->
              r = Thrown (InsufficientStock quantity (Product.stock p)))
          /\ (Product.warehouseId p = fromWarehouse ->
              warehouse_exists st toWarehouse ->
              quantity <= Product.stock p ->
              exists v, r = Returned v))
    /\ ((exists e, r = Thrown e) <->
        (~ product_exists st productId
         \/ exists n p,
              first_match (has_id productId) (products st) n p
              /\ (Product.warehouseId p <> fromWarehouse
                  \/ ~ warehouse_exists st toWarehouse
                  \/ quantity > Product.stock p))).
Proof.
  intros st productId fromWarehouse toWarehouse quantity r.
  assert (Hunknown : ~ product_exists st productId ->
                     r = Thrown (ProductNotFound productId)).
  { intros Hno. subst r.
    now rewrite transferStock_unknown by now apply no_product_findIndex. }
  assert (Hknown : forall n p,
    first_match (has_id productId) (products st) n p ->
    r = if negb (String.eqb (Product.warehouseId p) fromWarehouse)
        then Thrown (NotInWarehouse fromWarehouse)
        else match getWarehouseById (warehouses st) toWarehouse with
             | None => Thrown (WarehouseNotFound toWarehouse)
             | Some w =>
                 if quantity >? Product.stock p
                 then Thrown (InsufficientStock quantity (Product.stock p))
                 else Returned
                        (spread (Product.set_stock quantity
                                   (Product.set_warehouseId toWarehouse p))
                           (Some w) (getStatus quantity (Product.demand p)))
             end).
  { intros n p Hm. subst r. rewrite (transferStock_known _ _ _ _ _ n p Hm).
    destruct (negb _); [reflexivity |].
    destruct (getWarehouseById _ _); [| reflexivity].
    destruct (_ >? _); reflexivity. }
  split; [exact Hunknown |]. split.
  - intros n p Hm. specialize (Hknown n p Hm). clearbody r.
    destruct (String.eqb_spec (Product.warehouseId p) fromWarehouse)
      as [Hfrom | Hfrom]; cbn [negb] in Hknown.
    + destruct (getWarehouseById (warehouses st) toWarehouse) as [w |] eqn:Hw.
      * assert (Hex : warehouse_exists st toWarehouse)
          by (apply getWarehouseById_exists; eauto).
        destruct (Z.gtb_spec quantity (Product.stock p)) as [Hgt | Hle].
        -- repeat split; intros; try contradiction; auto; lia.
        -- repeat split; intros; try contradiction; eauto; lia.
      * apply getWarehouseById_None in Hw.
        repeat split; intros; try contradiction; auto.
    + repeat split; intros; try contradiction; auto.
  - split.
    + intros [e He].
      destruct (findIndex_cases (has_id productId) (products st))
        as [[_ Hall] | (n & p & _ & Hm)].
      * left. intros (q & Hin & Hid). specialize (Hall q Hin).
        apply has_id_false in Hall. contradiction.
      * right. exists n, p. split; [exact Hm |].
        specialize (Hknown n p Hm). rewrite Hknown in He.
        destruct (String.eqb_spec (Product.warehouseId p) fromWarehouse)
          as [Hfrom | Hfrom]; cbn [negb] in He; [| left; exact Hfrom].
        right.
        destruct (getWarehouseById (warehouses st) toWarehouse) eqn:Hw;
          [| left; now apply getWarehouseById_None].
        right.
        destruct (Z.gtb_spec quantity (Product.stock p)) as [Hgt | Hle];
          [lia | discriminate].
    + intros [Hno | (n & p & Hm & Hcase)].
      * eauto.
      * specialize (Hknown n p Hm). rewrite Hknown.
        destruct (String.eqb_spec (Product.warehouseId p) fromWarehouse)
          as [Hfrom | Hfrom]; cbn [negb]; [| eauto].
        destruct (getWarehouseById (warehouses st) toWarehouse) eqn:Hw;
          [| eauto].
        destruct (Z.gtb_spec quantity (Product.stock p)) as [Hgt | Hle];
          [eauto |].
        destruct Hcase as [Hc | [Hc | Hc]]; [contradiction | | lia].
        exfalso. apply Hc. apply getWarehouseById_exists. eauto.
Qed.

Lemma seed_first_P1001 :
  first_match (has_id "P-1001") (products seedStore) 0
    (Product.mk "P-1001" "12mm Hex Bolt" "HEX-12-100" "BLR-A" 180 120).
Proof.
  repeat split; try reflexivity. intros j y Hj. lia.
Qed.

Lemma seed_has_BLR_B : warehouse_exists seedStore "BLR-B".
Proof.
  exists (Warehouse.mk "BLR-B" "Bangalore Warehouse B"). split.
  - apply list_elem_of_further, list_elem_of_here.
  - reflexivity.
Qed.

Lemma seed_has_no_XYZ : ~ warehouse_exists seedStore "XYZ-0".
Proof. apply getWarehouseById_None. reflexivity. Qed.

Lemma transferStock_fails_iff_witness :
  fst (Mutation.transferStock "P-1001" "PNQ-C" "BLR-B" 100 seedStore)
  = Thrown (NotInWarehouse "PNQ-C")
  /\ fst (Mutation.transferStock "P-1001" "BLR-A" "XYZ-0" 100 seedStore)
     = Thrown (WarehouseNotFound "XYZ-0")
  /\ fst (Mutation.transferStock "P-1001" "BLR-A" "BLR-B" 200 seedStore)
     = Thrown (InsufficientStock 200 180)
  /\ exists v,
       fst (Mutation.transferStock "P-1001" "BLR-A" "BLR-B" 100 seedStore)
       = Returned v.
Proof.
  split; [| split; [| split]].
  - destruct (transferStock_fails_iff seedStore "P-1001" "PNQ-C" "BLR-B" 100)
      as (_ & Hknown & _).
    destruct (Hknown _ _ seed_first_P1001) as (Hsource & _).
    apply Hsource. discriminate.
  - destruct (transferStock_fails_iff seedStore "P-1001" "BLR-A" "XYZ-0" 100)
      as (_ & Hknown & _).
    destruct (Hknown _ _ seed_first_P1001) as (_ & Htarget & _).
    apply Htarget; [reflexivity | exact seed_has_no_XYZ].
  - destruct (transferStock_fails_iff seedStore "P-1001" "BLR-A" "BLR-B" 200)
      as (_ & Hknown & _).
    destruct (Hknown _ _ seed_first_P1001) as (_ & _ & Hstock & _).
    apply Hstock; [reflexivity | exact seed_has_BLR_B | simpl; lia].
  - destruct (transferStock_fails_iff seedStore "P-1001" "BLR-A" "BLR-B" 100)
      as (_ & Hknown & _).
    destruct (Hknown _ _ seed_first_P1001) as (_ & _ & _ & Hok).
    apply Hok; [reflexivity | exact seed_has_BLR_B | simpl; lia].
Defined.

(** ** updateDemand *)

(** C7: for every id of an existing product and every integer [d],
    [updateDemand] returns; the store it leaves differs from the one before
    in the demand field of the product addressed (the first one with the
    id), now [d]: the other fields of that product, every other product and
    the warehouses are as before; the result is that product joined with
    its warehouse and with status [getStatus stock d].  Its warehouse is a
    warehouse of the store whose id is the product's warehouseId, the one
    [getWarehouseById] finds; the record carries none only when no
    warehouse of the store has that id. *)
Theorem updateDemand_sets_only_demand :
  forall st productId d,
    product_exists st productId ->
    exists n p ow,
      first_match (has_id productId) (products st) n p
      /\ match ow with
         | Some w =>
             w ∈ warehouses st /\ Warehouse.id w = Product.warehouseId p
         | None =>
             forall w, w ∈ warehouses st ->
                       Warehouse.id w <> Product.warehouseId p
         end
      /\ (warehouse_exists st (Product.warehouseId p) ->
          exists w, ow = Some w)
      /\ ow = getWarehouseById (warehouses st) (Product.warehouseId p)
      /\ let p' := Product.mk (Product.id p) (Product.name p) (Product.sku p)
                     (Product.warehouseId p) (Product.stock p) d in
         let st' := snd (Mutation.updateDemand productId d st) in
         fst (Mutation.updateDemand productId d st)
         = Returned
             (ProductView.mk (Product.id p) (Product.name p) (Product.sku p)
                (Product.warehouseId p) (Product.stock p) d
                ow
                (getStatus (Product.stock p) d))
         /\ products st' = <[n := p']> (products st)
         /\ products st' !! n = Some p'
         /\ (forall j, j <> n -> products st' !! j = products st !! j)
         /\ length (products st') = length (products st)
         /\ warehouses st' = warehouses st.
Proof.
  intros st productId d Hex.
  apply product_exists_first in Hex as (n & p & Hm).
  exists n, p, (getWarehouseById (warehouses st) (Product.warehouseId p)).
  split; [exact Hm |].
  split.
  { destruct (getWarehouseById (warehouses st) (Product.warehouseId p))
      as [w |] eqn:Hw.
    - eapply getWarehouseById_Some, Hw.
    - apply getWarehouseById_None in Hw. intros w Hin Hid. apply Hw.
      exists w. auto. }
  split; [apply getWarehouseById_exists |].
  split; [reflexivity |].
  intros p' st'. subst st'.
  rewrite (updateDemand_known st productId d n p Hm).
  cbn [fst snd products warehouses].
  destruct Hm as (Hn & _ & _).
  repeat split.
  - apply list_lookup_insert_eq. eapply lookup_lt_Some, Hn.
  - intros j Hj. now apply list_lookup_insert_ne.
  - apply length_insert.
Qed.

Lemma updateDemand_sets_only_demand_witness :
  (exists n p ow,
     first_match (has_id "P-1002") (products seedStore) n p
     /\ match ow with
        | Some w =>
            w ∈ warehouses seedStore
            /\ Warehouse.id w = Product.warehouseId p
        | None =>
            forall w, w ∈ warehouses seedStore ->
                      Warehouse.id w <> Product.warehouseId p
        end
     /\ (warehouse_exists seedStore (Product.warehouseId p) ->
         exists w, ow = Some w)
     /\ ow = getWarehouseById (warehouses seedStore) (Product.warehouseId p)
     /\ let p' := Product.mk (Product.id p) (Product.name p) (Product.sku p)
                    (Product.warehouseId p) (Product.stock p) 40 in
        let st' := snd (Mutation.updateDemand "P-1002" 40 seedStore) in
        fst (Mutation.updateDemand "P-1002" 40 seedStore)
        = Returned
            (ProductView.mk (Product.id p) (Product.name p) (Product.sku p)
               (Product.warehouseId p) (Product.stock p) 40
               ow
               (getStatus (Product.stock p) 40))
        /\ products st' = <[n := p']> (products seedStore)
        /\ products st' !! n = Some p'
        /\ (forall j, j <> n -> products st' !! j = products seedStore !! j)
        /\ length (products st') = length (products seedStore)
        /\ warehouses st' = warehouses seedStore)
  /\ fst (Mutation.updateDemand "P-1002" 40 seedStore)
     = Returned
         (ProductView.mk "P-1002" "Steel Washer" "WSR-08-500" "BLR-A" 50 40
            (Some (Warehouse.mk "BLR-A" "Bangalore Warehouse A")) "healthy").
Proof.
  split; [| reflexivity].
  apply (updateDemand_sets_only_demand seedStore "P-1002" 40).
  exists (Product.mk "P-1002" "Steel Washer" "WSR-08-500" "BLR-A" 50 80).
  split.
  - apply list_elem_of_further, list_elem_of_here.
  - reflexivity.
Defined.

(** ** The effect of a request on the store *)

Lemma run_store_cases c st :
  snd (run c st) = st
  \/ exists n p p',
       products st !! n = Some p
       /\ snd (run c st) = mkStore (warehouses st) (<[n := p']> (products st))
       /\ rewrites c st p p'.
Proof.
  destruct c as [productId demand | productId fromW toW quantity]; simpl.
  - destruct (findIndex_cases (has_id productId) (products st))
      as [[Hidx _] | (n & p & _ & Hm)].
    + left. now rewrite updateDemand_unknown.
    + right. exists n, p, (Product.set_demand demand p).
      rewrite (updateDemand_known st productId demand n p Hm).
      repeat split. apply Hm.
  - destruct (findIndex_cases (has_id productId) (products st))
      as [[Hidx _] | (n & p & _ & Hm)].
    + left. now rewrite transferStock_unknown.
    + rewrite (transferStock_known st productId fromW toW quantity n p Hm).
      destruct (negb _); [left; reflexivity |].
      destruct (getWarehouseById (warehouses st) toW) as [w |] eqn:Hw;
        [| left; reflexivity].
      destruct (Z.gtb_spec quantity (Product.stock p)) as [Hgt | Hle];
        [left; reflexivity |].
      right. exists n, p. eexists. repeat split.
      * apply Hm.
      * apply getWarehouseById_exists. eauto.
      * exact Hle.
Qed.

Lemma rewrites_id c st p p' :
  rewrites c st p p' -> Product.id p' = Product.id p.
Proof. destruct c; simpl; [intros -> | intros (-> & _)]; reflexivity. Qed.

Lemma run_preserves_unique_ids c st :
  unique_ids st -> unique_ids (snd (run c st)).
Proof.
  intros Huniq.
  destruct (run_store_cases c st) as [-> | (n & p & p' & Hn & -> & Hrw)];
    [exact Huniq |].
  unfold unique_ids in *. cbn [products].
  rewrite list_fmap_insert, (rewrites_id _ _ _ _ Hrw), list_insert_id;
    [exact Huniq |].
  now rewrite list_lookup_fmap, Hn.
Qed.

(** Product ids stay unique in every store reached from the seed. *)
Lemma reachable_unique_ids cs : unique_ids (run_calls cs seedStore).
Proof.
  generalize seedStore_unique_ids. generalize seedStore.
  induction cs as [| c cs IH]; intros st Huniq; simpl; [exact Huniq |].
  apply IH, run_preserves_unique_ids, Huniq.
Qed.

(** ** Failures *)

(** C3: a call of [updateDemand] or [transferStock] that throws, whatever
    the error, leaves the whole store (every product and every warehouse)
    as it was before the call; for [e = NotInWarehouse fromWarehouse] this
    is a transfer refused for its source, which so leaves the stock and
    the warehouseId of the product as they were. *)
Theorem failed_mutation_leaves_store :
  forall c st e, fst (run c st) = Thrown e -> snd (run c st) = st.
Proof.
  intros c st e.
  destruct c as [productId demand | productId fromW toW quantity]; simpl.
  - destruct (findIndex_cases (has_id productId) (products st))
      as [[Hidx _] | (n & p & _ & Hm)].
    + now rewrite updateDemand_unknown.
    + rewrite (updateDemand_known st productId demand n p Hm). discriminate.
  - destruct (findIndex_cases (has_id productId) (products st))
      as [[Hidx _] | (n & p & _ & Hm)].
    + now rewrite transferStock_unknown.
    + rewrite (transferStock_known st productId fromW toW quantity n p Hm).
      destruct (negb _); [reflexivity |].
      destruct (getWarehouseById (warehouses st) toW); [| reflexivity].
      destruct (quantity >? Product.stock p); [reflexivity | discriminate].
Qed.

Lemma failed_mutation_leaves_store_witness :
  fst (run (TransferStock "P-1001" "PNQ-C" "BLR-B" 10) seedStore)
  = Thrown (NotInWarehouse "PNQ-C")
  /\ snd (run (TransferStock "P-1001" "PNQ-C" "BLR-B" 10) seedStore)
     = seedStore.
Proof.
  split.
  - reflexivity.
  - apply (failed_mutation_leaves_store
             (TransferStock "P-1001" "PNQ-C" "BLR-B" 10) seedStore
             (NotInWarehouse "PNQ-C")).
    reflexivity.
Defined.

(** ** Invariants of the store *)

Lemma elem_of_insert_inv {A : Type} (l : list A) (n : nat) (x y : A) :
  y ∈ <[n := x]> l -> y = x \/ y ∈ l.
Proof.
  intros Hy. apply list_elem_of_lookup in Hy as [j Hj].
  apply list_lookup_insert_Some in Hj as [(_ & -> & _) | (_ & Hj)].
  - now left.
  - right. eapply list_elem_of_lookup_2, Hj.
Qed.

Lemma seedStore_nonneg : nonneg_store seedStore.
Proof.
  intros p Hp. unfold seedStore, seedProducts in Hp. cbn [products] in Hp.
  repeat (apply elem_of_cons in Hp as [-> | Hp]; [simpl; lia |]).
  inversion Hp.
Qed.

Lemma run_preserves_nonneg c st :
  nonneg_store st -> nonneg_args c -> nonneg_store (snd (run c st)).
Proof.
  intros Hinv Hargs.
  destruct (run_store_cases c st) as [-> | (n & p & p' & Hn & -> & Hrw)];
    [exact Hinv |].
  intros x Hx. cbn [products] in Hx.
  apply elem_of_insert_inv in Hx as [-> | Hx]; [| now apply Hinv].
  destruct (Hinv p (list_elem_of_lookup_2 _ _ _ Hn)) as [Hs Hd].
  destruct c as [productId demand | productId fromW toW quantity];
    simpl in Hrw, Hargs.
  - subst p'. simpl. lia.
  - destruct Hrw as (-> & _ & _). simpl. lia.
Qed.

(** The claim that stock and demand stay non-negative for any integer
    arguments fails on the seed data: [updateDemand] with demand [-1]
    stores a negative demand, and [transferStock] with quantity [-5]
    stores a negative stock. *)
Lemma negative_arguments_break_nonneg :
  nonneg_store seedStore
  /\ ~ nonneg_store (snd (run (UpdateDemand "P-1001" (-1)) seedStore))
  /\ ~ nonneg_store
         (snd (run (TransferStock "P-1001" "BLR-A" "BLR-B" (-5)) seedStore)).
Proof.
  split; [exact seedStore_nonneg |]. split.
  - intros Hinv.
    destruct (Hinv (Product.mk "P-1001" "12mm Hex Bolt" "HEX-12-100"
                      "BLR-A" 180 (-1))) as [_ Hd].
    + apply list_elem_of_here.
    + simpl in Hd. lia.
  - intros Hinv.
    destruct (Hinv (Product.mk "P-1001" "12mm Hex Bolt" "HEX-12-100"
                      "BLR-B" (-5) 120)) as [Hs _].
    + apply list_elem_of_here.
    + simpl in Hs. lia.
Qed.

(** C4, amended: every product of the seed store has [stock >= 0] and
    [demand >= 0]; this is preserved by every [updateDemand] call whose
    demand argument is non-negative and by every [transferStock] call whose
    quantity argument is non-negative, from any store in which it holds;
    so it holds in every store reached from the seed by such calls. *)
Theorem nonneg_store_invariant :
  nonneg_store seedStore
  /\ (forall st c,
        nonneg_store st -> nonneg_args c -> nonneg_store (snd (run c st)))
  /\ (forall cs,
        Forall nonneg_args cs -> nonneg_store (run_calls cs seedStore)).
Proof.
  split; [exact seedStore_nonneg |].
  split; [intros st c; apply run_preserves_nonneg |].
  intros cs. generalize seedStore_nonneg. generalize seedStore.
  induction cs as [| c cs IH]; intros st Hinv Hargs; simpl; [exact Hinv |].
  apply Forall_cons in Hargs as [Hc Hcs].
  apply IH; [now apply run_preserves_nonneg | exact Hcs].
Qed.

Lemma nonneg_store_invariant_witness :
  nonneg_store
    (run_calls [UpdateDemand "P-1002" 40;
                TransferStock "P-1001" "BLR-A" "BLR-B" 100] seedStore).
Proof.
  apply (proj2 (proj2 nonneg_store_invariant)
           [UpdateDemand "P-1002" 40;
            TransferStock "P-1001" "BLR-A" "BLR-B" 100]).
  repeat constructor; simpl; lia.
Defined.

Lemma seedStore_warehouses_resolve : warehouses_resolve seedStore.
Proof.
  intros p Hp. apply getWarehouseById_exists.
  unfold seedStore, seedProducts in Hp. cbn [products] in Hp.
  repeat (apply elem_of_cons in Hp as [-> | Hp]; [eexists; reflexivity |]).
  inversion Hp.
Qed.

Lemma run_preserves_warehouses c st :
  warehouses (snd (run c st)) = warehouses st.
Proof.
  destruct (run_store_cases c st) as [-> | (n & p & p' & _ & -> & _)];
    reflexivity.
Qed.

Lemma run_preserves_warehouses_resolve c st :
  warehouses_resolve st -> warehouses_resolve (snd (run c st)).
Proof.
  intros Hinv.
  destruct (run_store_cases c st) as [-> | (n & p & p' & Hn & -> & Hrw)];
    [exact Hinv |].
  intros x Hx. cbn [products] in Hx.
  unfold warehouse_exists. cbn [warehouses].
  apply elem_of_insert_inv in Hx as [-> | Hx]; [| now apply Hinv].
  destruct c as [productId demand | productId fromW toW quantity];
    simpl in Hrw.
  - subst p'. simpl. apply Hinv. eapply list_elem_of_lookup_2, Hn.
  - destruct Hrw as (-> & Hto & _). simpl. exact Hto.
Qed.

(** C8: every product's warehouseId is the id of a warehouse of the store,
    in the seed store and in every store reached from it by any sequence of
    [updateDemand] and [transferStock] calls, whatever their arguments.
    Every call preserves the property from any store in which it holds;
    [updateDemand] leaves every warehouseId and the warehouses as they
    are; [transferStock] with a [toWarehouse] that is the id of no
    warehouse throws and leaves the store as it is. *)
Theorem warehouses_resolve_invariant :
  warehouses_resolve seedStore
  /\ (forall cs, warehouses_resolve (run_calls cs seedStore))
  /\ (forall st c,
        warehouses_resolve st -> warehouses_resolve (snd (run c st)))
  /\ (forall st productId demand,
        let st' := snd (Mutation.updateDemand productId demand st) in
        Product.warehouseId <$> products st'
        = Product.warehouseId <$> products st
        /\ warehouses st' = warehouses st)
  /\ (forall st productId fromWarehouse toWarehouse quantity,
        ~ warehouse_exists st toWarehouse ->
        let r := Mutation.transferStock productId fromWarehouse toWarehouse
                   quantity st in
        (exists e, fst r = Thrown e) /\ snd r = st).
Proof.
  split; [exact seedStore_warehouses_resolve |].
  split; [| split; [| split]].
  - intros cs. generalize seedStore_warehouses_resolve. generalize seedStore.
    induction cs as [| c cs IH]; intros st Hinv; simpl; [exact Hinv |].
    apply IH, run_preserves_warehouses_resolve, Hinv.
  - intros st c. apply run_preserves_warehouses_resolve.
  - intros st productId demand st'. subst st'.
    destruct (run_store_cases (UpdateDemand productId demand) st)
      as [Heq | (n & p & p' & Hn & Heq & Hrw)]; simpl in Heq; rewrite Heq.
    + split; reflexivity.
    + simpl in Hrw. subst p'. cbn [products warehouses].
      split; [| reflexivity].
      rewrite list_fmap_insert. apply list_insert_id.
      now rewrite list_lookup_fmap, Hn.
  - intros st productId fromW toW quantity Hno r. subst r.
    apply getWarehouseById_None in Hno.
    destruct (findIndex_cases (has_id productId) (products st))
      as [[Hidx _] | (n & p & _ & Hm)].
    + rewrite transferStock_unknown by exact Hidx. simpl. eauto.
    + rewrite (transferStock_known st productId fromW toW quantity n p Hm), Hno.
      destruct (negb _); simpl; eauto.
Qed.

Lemma warehouses_resolve_invariant_witness :
  warehouses_resolve
    (snd (run (TransferStock "P-1001" "BLR-A" "BLR-B" 100) seedStore))
  /\ snd (Mutation.transferStock "P-1001" "BLR-A" "XYZ-0" 100 seedStore)
     = seedStore.
Proof.
  destruct warehouses_resolve_invariant as (Hseed & _ & Hstep & _ & Hreject).
  split.
  - apply Hstep. exact Hseed.
  - apply (Hreject seedStore "P-1001" "BLR-A" "XYZ-0" 100).
    apply getWarehouseById_None. reflexivity.
Defined.

(** ** The [products] query: filtering *)

Section Filtering.
Variable toLowerCase : string -> string.

Lemma filter_true {A : Type} (l : list A) :
  List.filter (fun _ => true) l = l.
Proof. induction l as [| a l IH]; simpl; [| rewrite IH]; reflexivity. Qed.

Lemma filter_filter {A : Type} (f g : A -> bool) (l : list A) :
  List.filter g (List.filter f l) = List.filter (fun x => f x && g x) l.
Proof.
  induction l as [| a l IH]; simpl; [reflexivity |].
  destruct (f a); simpl; [destruct (g a) |]; now rewrite IH.
Qed.

Lemma if_truthy_filter {A : Type} (a : arg string)
    (test : string -> A -> bool) (l : list A) :
  if_truthy a (fun s l' => List.filter (test s) l') l
  = List.filter
      (fun x => match filter_value a with
                | Some s => test s x
                | None => true
                end) l.
Proof.
  destruct a as [| | s]; simpl; try now rewrite filter_true.
  destruct (String.eqb s EmptyString);
    [now rewrite filter_true | reflexivity].
Qed.

(** The three guarded filters of the resolver, one after the other, keep
    the joined products that pass all of them. *)
Lemma products_run st fa pa :
  fa <> Null -> pa <> Null ->
  Query.products toLowerCase st fa pa
  = let l := filtered toLowerCase st (filters_of fa) in
    let page := page_number pa in
    let limit := limit_number pa in
    Returned
      (ProductConnection.mk
         (slice l page (page + limit))
         (Z.of_nat (length l))
         (PageInfo.mk (page + limit <? Z.of_nat (length l)) (page >? 0))).
Proof.
  intros Hfa Hpa. unfold Query.products, page_number, limit_number.
  assert (Hf : destructured ProductFilters.empty fa = Returned (filters_of fa))
    by (destruct fa; simpl; congruence).
  assert (Hp : destructured PaginationInput.empty pa
               = Returned (pagination_of pa))
    by (destruct pa; simpl; congruence).
  rewrite Hf, Hp. cbv zeta.
  fold (joined st).
  rewrite (if_truthy_filter (ProductFilters.search (filters_of fa))
             (fun s p =>
                includes (toLowerCase (ProductView.name p)) (toLowerCase s)
                || includes (toLowerCase (ProductView.sku p)) (toLowerCase s))).
  rewrite (if_truthy_filter (ProductFilters.warehouseId (filters_of fa))
             (fun w p => String.eqb (ProductView.warehouseId p) w)).
  rewrite (if_truthy_filter (ProductFilters.status (filters_of fa))
             (fun s p => String.eqb (ProductView.status p) s)).
  rewrite !filter_filter. reflexivity.
Qed.

Lemma products_null_filters st pa :
  Query.products toLowerCase st Null pa = Thrown TypeError.
Proof. reflexivity. Qed.

Lemma products_null_pagination st fa :
  Query.products toLowerCase st fa Null = Thrown TypeError.
Proof. destruct fa; reflexivity. Qed.
End Filtering.

(** ** The [products] query: pagination *)

Section Slices.
Context {A : Type}.
Implicit Types l : list A.

Lemma take_same_min l (n m : nat) :
  Nat.min n (length l) = Nat.min m (length l) -> take n l = take m l.
Proof.
  intros H. destruct (Nat.le_gt_cases (length l) n) as [Hn | Hn].
  - rewrite (take_ge l n) by exact Hn. symmetry. apply take_ge. lia.
  - assert (n = m) as -> by lia. reflexivity.
Qed.

(** For a non-negative offset and a non-negative length, [slice] gives
    the [limit] elements from offset [page] on, as far as there are. *)
Lemma slice_page l page limit :
  0 <= page -> 0 <= limit ->
  slice l page (page + limit) = page_of l page limit.
Proof.
  intros Hpage Hlimit. unfold slice, page_of.
  destruct (Z.ltb_spec page 0) as [? | _]; [lia |].
  destruct (Z.ltb_spec (page + limit) 0) as [? | _]; [lia |].
  destruct (Z.le_gt_cases page (Z.of_nat (length l))) as [Hin | Hout].
  - rewrite (Z.min_l page) by exact Hin.
    apply take_same_min. rewrite length_drop. lia.
  - rewrite (Z.min_r page) by lia. rewrite Nat2Z.id, drop_all.
    rewrite (drop_ge l (Z.to_nat page)) by lia.
    now rewrite !take_nil.
Qed.

Lemma page_of_length l page limit :
  0 <= limit -> Z.of_nat (length (page_of l page limit)) <= limit.
Proof. intros H. unfold page_of. rewrite length_take. lia. Qed.

Lemma page_of_beyond l page limit :
  Z.of_nat (length l) <= page -> page_of l page limit = [].
Proof.
  intros H. unfold page_of. rewrite (drop_ge l) by lia. apply take_nil.
Qed.

Lemma page_of_lookup l page limit (i : nat) :
  Z.of_nat i < limit ->
  page_of l page limit !! i = l !! (Z.to_nat page + i)%nat.
Proof.
  intros H. unfold page_of.
  rewrite lookup_take_lt by lia. apply lookup_drop.
Qed.

Lemma page_of_next l page n m :
  0 <= page -> 0 <= n -> 0 <= m ->
  (page_of l page n ++ page_of l (page + n) m)%list = page_of l page (n + m).
Proof.
  intros Hp Hn Hm. unfold page_of.
  rewrite !Z2Nat.inj_add by lia.
  rewrite <- drop_drop. apply take_take_drop.
Qed.

Lemma page_of_all l limit :
  Z.of_nat (length l) <= limit -> page_of l 0 limit = l.
Proof. intros H. unfold page_of. rewrite drop_0. apply take_ge. lia. Qed.
End Slices.

Section Listing.
Variable toLowerCase : string -> string.

(** C6, amended: for every store, every filter combination and every
    pagination input, the [filters] and [pagination] arguments each being
    an object or left out and the [page] and [limit] fields each being an
    integer or left out (none of them [null]), with [page] the integer
    given or 0 and [limit] the integer given or 100, [products] returns;
    [total] is the number of joined products that pass the filters;
    [hasNextPage] is true exactly when [page + limit < total] and
    [hasPreviousPage] exactly when [page > 0]; and when [page] and [limit]
    are non-negative, [items] is the contiguous slice of the filtered
    sequence from offset [page] on, of length at most [limit], empty when
    [page >= total]. *)
Theorem products_page :
  forall st fa pa page limit,
    fa <> Null -> pa <> Null ->
    field_value 0 (PaginationInput.page (pagination_of pa)) = Some page ->
    field_value 100 (PaginationInput.limit (pagination_of pa)) = Some limit ->
    let l := filtered toLowerCase st (filters_of fa) in
    exists conn,
      Query.products toLowerCase st fa pa = Returned conn
      /\ ProductConnection.total conn = Z.of_nat (length l)
      /\ (PageInfo.hasNextPage (ProductConnection.pageInfo conn) = true
          <-> page + limit < ProductConnection.total conn)
      /\ (PageInfo.hasPreviousPage (ProductConnection.pageInfo conn) = true
          <-> page > 0)
      /\ (0 <= page -> 0 <= limit ->
          ProductConnection.items conn = page_of l page limit
          /\ Z.of_nat (length (ProductConnection.items conn)) <= limit
          /\ (forall i : nat,
                Z.of_nat i < limit ->
                ProductConnection.items conn !! i
                = l !! (Z.to_nat page + i)%nat)
          /\ (page >= ProductConnection.total conn ->
              ProductConnection.items conn = [])).
Proof.
  intros st fa pa page limit Hfa Hpa Hpagev Hlimitv l.
  assert (Hpage' : page_number pa = page).
  { unfold page_number.
    destruct (PaginationInput.page (pagination_of pa));
      simpl in *; congruence. }
  assert (Hlimit' : limit_number pa = limit).
  { unfold limit_number.
    destruct (PaginationInput.limit (pagination_of pa));
      simpl in *; congruence. }
  eexists. split; [apply products_run; assumption |].
  cbn [ProductConnection.total ProductConnection.items
       ProductConnection.pageInfo PageInfo.hasNextPage
       PageInfo.hasPreviousPage].
  rewrite Hpage', Hlimit'. fold l.
  split; [reflexivity |]. split; [apply Z.ltb_lt |].
  split; [rewrite Z.gtb_ltb, Z.ltb_lt; lia |].
  intros Hpage Hlimit. rewrite slice_page by assumption.
  split; [reflexivity |].
  split; [now apply page_of_length |].
  split; [intros i Hi; now apply page_of_lookup |].
  intros Hbeyond. apply page_of_beyond. lia.
Qed.
End Listing.

Lemma products_page_witness :
  exists conn,
    Query.products ascii_toLowerCase seedStore
      (Given (ProductFilters.mk Absent Absent (Given "critical")))
      (Given (PaginationInput.mk (Given 1) (Given 1)))
    = Returned conn
    /\ ProductConnection.total conn = 3
    /\ map ProductView.id (ProductConnection.items conn) = ["P-1004"].
Proof.
  destruct (products_page ascii_toLowerCase seedStore
              (Given (ProductFilters.mk Absent Absent (Given "critical")))
              (Given (PaginationInput.mk (Given 1) (Given 1))) 1 1)
    as (conn & Hrun & Htotal & _ & _ & Hitems).
  - discriminate.
  - discriminate.
  - reflexivity.
  - reflexivity.
  - destruct Hitems as (Hitems & _); [vm_compute; discriminate ..|].
    exists conn. split; [exact Hrun |]. split; [exact Htotal |].
    rewrite Hitems. reflexivity.
Defined.

(** The claim fails for inputs the schema accepts.  On the seed data with
    no filter: [page = 0, limit = -1] returns five items, more than
    [limit]; [page = -2, limit = 100] returns the last two products, from
    offset 4 on, while [hasPreviousPage] is false; [page = 0] with [limit]
    given as [null] returns no item and [hasNextPage] true, where the same
    query with [limit] left out returns the six products and [hasNextPage]
    false; a [null] for [filters] or for [pagination] makes the resolver
    throw. *)
Lemma products_page_counterexample :
  (exists conn,
     Query.products ascii_toLowerCase seedStore Absent
       (Given (PaginationInput.mk (Given 0) (Given (-1)))) = Returned conn
     /\ length (ProductConnection.items conn) = 5%nat
     /\ ~ (Z.of_nat (length (ProductConnection.items conn)) <= -1))
  /\ (exists conn,
        Query.products ascii_toLowerCase seedStore Absent
          (Given (PaginationInput.mk (Given (-2)) (Given 100))) = Returned conn
        /\ ProductConnection.total conn = 6
        /\ map ProductView.id (ProductConnection.items conn)
           = ["P-1005"; "P-1006"]
        /\ ProductConnection.items conn
           = drop 4 (filtered ascii_toLowerCase seedStore ProductFilters.empty)
        /\ PageInfo.hasPreviousPage (ProductConnection.pageInfo conn) = false)
  /\ Query.products ascii_toLowerCase seedStore Null Absent = Thrown TypeError
  /\ Query.products ascii_toLowerCase seedStore Absent Null = Thrown TypeError
  /\ (exists conn conn',
        Query.products ascii_toLowerCase seedStore Absent
          (Given (PaginationInput.mk (Given 0) Null)) = Returned conn
        /\ Query.products ascii_toLowerCase seedStore Absent
             (Given (PaginationInput.mk (Given 0) Absent)) = Returned conn'
        /\ ProductConnection.total conn = 6
        /\ ProductConnection.items conn = []
        /\ PageInfo.hasNextPage (ProductConnection.pageInfo conn) = true
        /\ length (ProductConnection.items conn') = 6%nat
        /\ PageInfo.hasNextPage (ProductConnection.pageInfo conn') = false).
Proof.
  split; [| split; [| split; [| split]]].
  - eexists. split; [reflexivity |]. split; [reflexivity |]. simpl. lia.
  - eexists. repeat split; reflexivity.
  - reflexivity.
  - reflexivity.
  - do 2 eexists. repeat split; reflexivity.
Qed.

(** With [limit = 2], the queries at [page = 0] and [page = 2] do not cover
    a filtered set of six items: on the seed data with no filter they
    return the first four products, and [hasNextPage] is still true at
    [page = 2]. *)
Lemma two_pages_do_not_cover_six :
  length (filtered ascii_toLowerCase seedStore ProductFilters.empty) = 6%nat
  /\ (items_at ascii_toLowerCase seedStore Absent 0 2
      ++ items_at ascii_toLowerCase seedStore Absent 2 2)%list
     <> filtered ascii_toLowerCase seedStore ProductFilters.empty
  /\ map ProductView.id
       (items_at ascii_toLowerCase seedStore Absent 0 2
        ++ items_at ascii_toLowerCase seedStore Absent 2 2)%list
     = ["P-1001"; "P-1002"; "P-1003"; "P-1004"]
  /\ hasNextPage_at ascii_toLowerCase seedStore Absent 2 2 = Some true.
Proof.
  split; [reflexivity |]. split; [| split; reflexivity].
  intros H. apply (f_equal (@length _)) in H. vm_compute in H. discriminate.
Qed.

Section Paging.
Variable toLowerCase : string -> string.

Lemma items_at_page st fa page limit :
  fa <> Null -> 0 <= page -> 0 <= limit ->
  items_at toLowerCase st fa page limit
  = page_of (filtered toLowerCase st (filters_of fa)) page limit.
Proof.
  intros Hfa Hpage Hlimit. unfold items_at.
  rewrite products_run by (assumption || discriminate).
  cbn [ProductConnection.items].
  now apply slice_page.
Qed.

Lemma hasNextPage_at_run st fa page limit :
  fa <> Null ->
  hasNextPage_at toLowerCase st fa page limit
  = Some (page + limit
          <? Z.of_nat (length (filtered toLowerCase st (filters_of fa)))).
Proof.
  intros Hfa. unfold hasNextPage_at.
  now rewrite products_run by (assumption || discriminate).
Qed.

(** C9, amended: with [limit = 2], over a filtered set of six items, the
    queries at [page = 0], [page = 2] and [page = 4] partition the items
    with no overlap and no gap: each returns the two items from its
    offset on, and the three results in order make up the filtered
    sequence; the queries at [page = 0] and [page = 2] alone return its
    first four items.  [hasNextPage] is true exactly while
    [page + limit < total]: at every offset [page] it is the truth value
    of [page + 2 < 6], true at 0 and 2 and false at 4. *)
Theorem three_pages_partition_six :
  forall st fa,
    fa <> Null ->
    let l := filtered toLowerCase st (filters_of fa) in
    length l = 6%nat ->
    let items := items_at toLowerCase st fa in
    (items 0 2 ++ items 2 2 ++ items 4 2)%list = l
    /\ (items 0 2 ++ items 2 2)%list = take 4 l
    /\ (forall (k i : nat),
          (k < 3)%nat -> (i < 2)%nat ->
          items (2 * Z.of_nat k) 2 !! i = l !! (2 * k + i)%nat)
    /\ (forall k : nat,
          (k < 3)%nat -> length (items (2 * Z.of_nat k) 2) = 2%nat)
    /\ (forall page,
          hasNextPage_at toLowerCase st fa page 2 = Some (page + 2 <? 6))
    /\ hasNextPage_at toLowerCase st fa 0 2 = Some true
    /\ hasNextPage_at toLowerCase st fa 2 2 = Some true
    /\ hasNextPage_at toLowerCase st fa 4 2 = Some false.
Proof.
  intros st fa Hfa l Hlen items.
  assert (Hitems : forall page, 0 <= page -> items page 2 = page_of l page 2)
    by (intros page Hpage; apply items_at_page; [assumption | lia | lia]).
  assert (Hnext : forall page,
            hasNextPage_at toLowerCase st fa page 2 = Some (page + 2 <? 6)).
  { intros page. rewrite hasNextPage_at_run by assumption.
    fold l. now rewrite Hlen. }
  split; [| split; [| split; [| split; [| split]]]].
  - rewrite !Hitems by lia.
    assert (H24 : (page_of l 2 2 ++ page_of l 4 2)%list = page_of l 2 4)
      by (apply (page_of_next l 2 2 2); lia).
    assert (H06 : (page_of l 0 2 ++ page_of l 2 4)%list = page_of l 0 6)
      by (apply (page_of_next l 0 2 4); lia).
    rewrite H24, H06. apply page_of_all. lia.
  - rewrite !Hitems by lia.
    assert (H04 : (page_of l 0 2 ++ page_of l 2 2)%list = page_of l 0 4)
      by (apply (page_of_next l 0 2 2); lia).
    rewrite H04. unfold page_of. now rewrite drop_0.
  - intros k i Hk Hi. rewrite Hitems by lia.
    rewrite page_of_lookup by lia. f_equal. lia.
  - intros k Hk. rewrite Hitems by lia. unfold page_of.
    rewrite length_take, length_drop. lia.
  - exact Hnext.
  - rewrite !Hnext. repeat split; reflexivity.
Qed.
End Paging.

Lemma three_pages_partition_six_witness :
  (items_at ascii_toLowerCase seedStore Absent 0 2
   ++ items_at ascii_toLowerCase seedStore Absent 2 2
   ++ items_at ascii_toLowerCase seedStore Absent 4 2)%list
  = filtered ascii_toLowerCase seedStore ProductFilters.empty.
Proof.
  apply (three_pages_partition_six ascii_toLowerCase seedStore Absent).
  - discriminate.
  - reflexivity.
Defined.

(** ** Empty filter values *)

Section EmptyFilters.
Variable toLowerCase : string -> string.

(** C10: an empty string in [search], in [warehouseId] or in [status]
    gives the same result (items, total and pageInfo, or the same error)
    as the query with that field left out, whatever the other fields and
    the pagination; and with [warehouseId] empty and no other filter the
    filtered sequence is the whole list of joined products: the total is
    the number of products of the store. *)
Theorem empty_filter_is_absent :
  forall st search warehouseId status pa,
    Query.products toLowerCase st
      (Given (ProductFilters.mk (Given EmptyString) warehouseId status)) pa
    = Query.products toLowerCase st
        (Given (ProductFilters.mk Absent warehouseId status)) pa
    /\ Query.products toLowerCase st
         (Given (ProductFilters.mk search (Given EmptyString) status)) pa
       = Query.products toLowerCase st
           (Given (ProductFilters.mk search Absent status)) pa
    /\ Query.products toLowerCase st
         (Given (ProductFilters.mk search warehouseId (Given EmptyString)))
         pa
       = Query.products toLowerCase st
           (Given (ProductFilters.mk search warehouseId Absent)) pa
    /\ filtered toLowerCase st
         (ProductFilters.mk Absent (Given EmptyString) Absent) = joined st
    /\ (pa <> Null ->
        exists conn,
          Query.products toLowerCase st
            (Given (ProductFilters.mk Absent (Given EmptyString) Absent)) pa
          = Returned conn
          /\ ProductConnection.total conn
             = Z.of_nat (length (products st))
          /\ ProductConnection.items conn
             = slice (joined st) (page_number pa)
                 (page_number pa + limit_number pa)).
Proof.
  intros st search warehouseId status pa.
  assert (Hall : filtered toLowerCase st
                   (ProductFilters.mk Absent (Given EmptyString) Absent)
                 = joined st)
    by apply filter_true.
  split; [reflexivity |]. split; [reflexivity |]. split; [reflexivity |].
  split; [exact Hall |].
  intros Hpa. eexists. split; [apply products_run; congruence |].
  cbn [ProductConnection.total ProductConnection.items filters_of].
  rewrite Hall. unfold joined. rewrite length_map. split; reflexivity.
Qed.
End EmptyFilters.

Lemma empty_filter_is_absent_witness :
  exists conn,
    Query.products ascii_toLowerCase seedStore
      (Given (ProductFilters.mk Absent (Given EmptyString) Absent)) Absent
    = Returned conn
    /\ ProductConnection.total conn = 6.
Proof.
  destruct (empty_filter_is_absent ascii_toLowerCase seedStore
              Absent Absent Absent Absent) as (_ & _ & _ & _ & Hall).
  destruct Hall as (conn & Hrun & Htotal & _); [discriminate |].
  exists conn. split; [exact Hrun | exact Htotal].
Defined.

(** ** The examples of the specification on the seed data *)

Example search_bolt :
  map ProductView.name
    (items_at ascii_toLowerCase seedStore
       (Given (ProductFilters.mk (Given "bolt") Absent Absent)) 0 100)
  = ["12mm Hex Bolt"].
Proof. reflexivity. Qed.

Example status_critical :
  map (fun p => (ProductView.name p, ProductView.stock p, ProductView.demand p))
    (items_at ascii_toLowerCase seedStore
       (Given (ProductFilters.mk Absent Absent (Given "critical"))) 0 100)
  = [("Steel Washer", 50, 80); ("Bearing 608ZZ", 24, 120);
     ("Aluminum Sheet", 75, 100)].
Proof. reflexivity. Qed.

Example unmatched_status :
  items_at ascii_toLowerCase seedStore
    (Given (ProductFilters.mk Absent Absent (Given "unknown"))) 0 100 = [].
Proof. reflexivity. Qed.

Example updateDemand_P1002_40 :
  getStatus 50 80 = "critical"
  /\ exists v,
       fst (Mutation.updateDemand "P-1002" 40 seedStore) = Returned v
       /\ ProductView.status v = "healthy".
Proof. split; [reflexivity |]. eexists. split; reflexivity. Qed.

Example updateDemand_unknown_id :
  Mutation.updateDemand "P-0000" 40 seedStore
  = (Thrown (ProductNotFound "P-0000"), seedStore).
Proof. reflexivity. Qed.

Example transferStock_200 :
  Mutation.transferStock "P-1001" "BLR-A" "BLR-B" 200 seedStore
  = (Thrown (InsufficientStock 200 180), seedStore).
Proof. reflexivity. Qed.

(** ** Status derivation *)

(** C5: for all integers [stock] and [demand], [getStatus] returns one of
    the three categories, [healthy] exactly when [stock > demand], [low]
    exactly when [stock = demand] and [critical] exactly when
    [stock < demand]; the three cases exclude one another, and
    [getStatus s s] is [low] for every [s].  The function is total: it is a
    Rocq function with no failure case. *)
Theorem getStatus_three_way :
  forall stock demand : Z,
    (getStatus stock demand = "healthy"
     \/ getStatus stock demand = "low"
     \/ getStatus stock demand = "critical")
    /\ (getStatus stock demand = "healthy" <-> stock > demand)
    /\ (getStatus stock demand = "low" <-> stock = demand)
    /\ (getStatus stock demand = "critical" <-> stock < demand)
    /\ getStatus stock stock = "low".
Proof.
  intros stock demand. unfold getStatus.
  rewrite !Z.gtb_ltb, Z.ltb_irrefl, Z.eqb_refl.
  destruct (Z.ltb_spec demand stock) as [Hlt | Hle].
  - repeat split; auto; try discriminate; intros; lia.
  - destruct (Z.eqb_spec stock demand) as [Heq | Hne].
    + repeat split; auto; try discriminate; intros; lia.
    + repeat split; auto; try discriminate; intros; lia.
Qed.

(** * Further properties of the resolvers *)

(** ** Looking a warehouse up *)

Lemma find_first_match {A : Type} (f : A -> bool) (l : list A) (x : A) :
  find f l = Some x -> exists n, first_match f l n x.
Proof.
  induction l as [| a l IH]; simpl; [discriminate |].
  destruct (f a) eqn:Hfa.
  - intros [= <-]. exists 0%nat. repeat split; auto. intros j y Hj. lia.
  - intros H. destruct (IH H) as (n & Hn & Hfx & Hbefore).
    exists (S n). repeat split; auto.
    intros [| j] y Hj Hy; simpl in Hy; [congruence |].
    apply (Hbefore j); [lia | exact Hy].
Qed.

(** X1: [getWarehouseById] gives [undefined] exactly when no warehouse of
    the array has the id, and otherwise the first warehouse of the array
    that has it. *)
Theorem getWarehouseById_first :
  forall (ws : list Warehouse.t) (id : string),
    match getWarehouseById ws id with
    | None => forall w, w ∈ ws -> Warehouse.id w <> id
    | Some w =>
        exists n,
          ws !! n = Some w /\ Warehouse.id w = id
          /\ forall j w', (j < n)%nat -> ws !! j = Some w' ->
                          Warehouse.id w' <> id
    end.
Proof.
  intros ws id. unfold getWarehouseById.
  destruct (find _ ws) as [w |] eqn:Hfind.
  - apply find_first_match in Hfind as (n & Hn & Hid & Hbefore).
    exists n. split; [exact Hn |]. split; [now apply String.eqb_eq |].
    intros j w' Hj Hw'. apply String.eqb_neq. now apply (Hbefore j).
  - intros w Hin. apply String.eqb_neq.
    exact (proj1 (find_None _ _) Hfind w Hin).
Qed.

(** ** Errors of updateDemand *)

(** X2: [updateDemand] throws exactly when no product has the id; the error
    is then [ProductNotFound] with that id and the store is left as it is;
    for the id of an existing product it returns, whatever the demand. *)
Theorem updateDemand_fails_iff :
  forall st productId demand,
    let r := Mutation.updateDemand productId demand st in
    ((exists e, fst r = Thrown e) <-> ~ product_exists st productId)
    /\ (~ product_exists st productId ->
        r = (Thrown (ProductNotFound productId), st))
    /\ (product_exists st productId -> exists v, fst r = Returned v).
Proof.
  intros st productId demand r.
  assert (Hno : ~ product_exists st productId ->
                r = (Thrown (ProductNotFound productId), st)).
  { intros H. subst r. apply updateDemand_unknown.
    now apply no_product_findIndex. }
  assert (Hyes : product_exists st productId -> exists v, fst r = Returned v).
  { intros H. apply product_exists_first in H as (n & p & Hm). subst r.
    rewrite (updateDemand_known st productId demand n p Hm). simpl. eauto. }
  split; [| split; assumption].
  split.
  - intros [e He] Hex. destruct (Hyes Hex) as [v Hv]. congruence.
  - intros H. rewrite (Hno H). simpl. eauto.
Qed.

Lemma updateDemand_fails_iff_witness :
  Mutation.updateDemand "P-0000" 5 seedStore
  = (Thrown (ProductNotFound "P-0000"), seedStore).
Proof.
  apply (updateDemand_fails_iff seedStore "P-0000" 5).
  intros (p & Hin & Hid). unfold seedStore, seedProducts in Hin.
  cbn [products] in Hin.
  repeat (apply elem_of_cons in Hin as [-> | Hin]; [discriminate |]).
  inversion Hin.
Defined.

(** ** Mutations and the store *)

Lemma first_match_insert {A : Type} (f : A -> bool) (l : list A) n x y :
  first_match f l n x -> f y = true -> first_match f (<[n := y]> l) n y.
Proof.
  intros (Hn & _ & Hbefore) Hfy. repeat split; [| exact Hfy |].
  - apply list_lookup_insert_eq. eapply lookup_lt_Some, Hn.
  - intros j z Hj Hz. rewrite list_lookup_insert_ne in Hz by lia.
    now apply (Hbefore j).
Qed.

Lemma joined_lookup st n p :
  products st !! n = Some p ->
  joined st !! n
  = Some (spread p
            (getWarehouseById (warehouses st) (Product.warehouseId p))
            (getStatus (Product.stock p) (Product.demand p))).
Proof.
  intros Hn. unfold joined. change (map ?f ?l) with (f <$> l).
  now rewrite list_lookup_fmap, Hn.
Qed.

(** What a mutation returns is the join of the product it wrote. *)
Lemma run_returned_shape c st v :
  fst (run c st) = Returned v ->
  exists n p',
    products (snd (run c st)) !! n = Some p'
    /\ v = spread p'
             (getWarehouseById (warehouses (snd (run c st)))
                (Product.warehouseId p'))
             (getStatus (Product.stock p') (Product.demand p')).
Proof.
  intros Hv.
  destruct c as [productId demand | productId fromW toW quantity];
    simpl in *;
    destruct (findIndex_cases (has_id productId) (products st))
      as [[Hidx _] | (n & p & _ & Hm)].
  - rewrite updateDemand_unknown in Hv by exact Hidx. discriminate.
  - rewrite (updateDemand_known st productId demand n p Hm) in *.
    simpl in Hv. injection Hv as <-.
    exists n, (Product.set_demand demand p). cbn [snd products warehouses].
    split; [| reflexivity].
    apply list_lookup_insert_eq. eapply lookup_lt_Some, Hm.
  - rewrite transferStock_unknown in Hv by exact Hidx. discriminate.
  - rewrite (transferStock_known st productId fromW toW quantity n p Hm) in *.
    destruct (negb _); [discriminate |].
    destruct (getWarehouseById (warehouses st) toW) as [w |] eqn:Hw;
      [| discriminate].
    destruct (quantity >? Product.stock p); [discriminate |].
    cbv zeta in *. simpl in Hv. injection Hv as <-.
    eexists n, _. cbn [snd products warehouses].
    split; [apply list_lookup_insert_eq; eapply lookup_lt_Some, Hm |].
    simpl. now rewrite Hw.
Qed.

(** X3: the record a mutation returns is the one the store then holds:
    when [updateDemand] or [transferStock] returns [v], some position of
    the products array of the new store holds a product whose join with
    its warehouse and status, as the [products] query builds it, is [v]. *)
Theorem mutation_result_is_listed :
  forall c st v,
    fst (run c st) = Returned v ->
    exists n p',
      products (snd (run c st)) !! n = Some p'
      /\ v = spread p'
               (getWarehouseById (warehouses (snd (run c st)))
                  (Product.warehouseId p'))
               (getStatus (Product.stock p') (Product.demand p'))
      /\ joined (snd (run c st)) !! n = Some v.
Proof.
  intros c st v Hv.
  destruct (run_returned_shape c st v Hv) as (n & p' & Hn & Hshape).
  exists n, p'. split; [exact Hn |]. split; [exact Hshape |].
  rewrite Hshape. now apply joined_lookup.
Qed.

Lemma mutation_result_is_listed_witness :
  exists n p',
    products (snd (run (UpdateDemand "P-1002" 40) seedStore)) !! n = Some p'
    /\ spread (Product.mk "P-1002" "Steel Washer" "WSR-08-500" "BLR-A" 50 40)
         (Some (Warehouse.mk "BLR-A" "Bangalore Warehouse A")) "healthy"
       = spread p'
           (getWarehouseById
              (warehouses (snd (run (UpdateDemand "P-1002" 40) seedStore)))
              (Product.warehouseId p'))
           (getStatus (Product.stock p') (Product.demand p'))
    /\ joined (snd (run (UpdateDemand "P-1002" 40) seedStore)) !! n
       = Some (spread
                 (Product.mk "P-1002" "Steel Washer" "WSR-08-500" "BLR-A" 50 40)
                 (Some (Warehouse.mk "BLR-A" "Bangalore Warehouse A"))
                 "healthy").
Proof.
  apply (mutation_result_is_listed (UpdateDemand "P-1002" 40) seedStore).
  reflexivity.
Defined.

Lemma run_keeps_field {B : Type} (field : Product.t -> B) c st :
  (forall p p', rewrites c st p p' -> field p' = field p) ->
  field <$> products (snd (run c st)) = field <$> products st.
Proof.
  intros Hfield.
  destruct (run_store_cases c st) as [-> | (n & p & p' & Hn & -> & Hrw)];
    [reflexivity |].
  cbn [products]. rewrite list_fmap_insert, (Hfield _ _ Hrw).
  apply list_insert_id. now rewrite list_lookup_fmap, Hn.
Qed.

Lemma rewrites_identity c st p p' :
  rewrites c st p p' ->
  Product.id p' = Product.id p /\ Product.name p' = Product.name p
  /\ Product.sku p' = Product.sku p.
Proof. destruct c; simpl; [intros -> | intros (-> & _)]; auto. Qed.

(** X4: no sequence of [updateDemand] and [transferStock] calls, whatever
    their arguments and outcomes, adds, removes or reorders products or
    changes the id, the name or the sku of one: the three columns of the
    products array are as before.  The warehouses are as before too. *)
Theorem mutations_keep_identity :
  forall cs st,
    Product.id <$> products (run_calls cs st) = Product.id <$> products st
    /\ Product.name <$> products (run_calls cs st)
       = Product.name <$> products st
    /\ Product.sku <$> products (run_calls cs st)
       = Product.sku <$> products st
    /\ length (products (run_calls cs st)) = length (products st)
    /\ warehouses (run_calls cs st) = warehouses st.
Proof.
  induction cs as [| c cs IH]; intros st; simpl; [repeat split |].
  destruct (IH (snd (run c st))) as (Hid & Hname & Hsku & Hlen & Hws).
  rewrite Hid, Hname, Hsku, Hlen, Hws.
  assert (Hids : Product.id <$> products (snd (run c st))
                 = Product.id <$> products st)
    by (apply run_keeps_field; intros p p' H;
        apply (rewrites_identity _ _ _ _ H)).
  split; [exact Hids |].
  split; [apply run_keeps_field; intros p p' H;
          apply (rewrites_identity _ _ _ _ H) |].
  split; [apply run_keeps_field; intros p p' H;
          apply (rewrites_identity _ _ _ _ H) |].
  split; [| apply run_preserves_warehouses].
  apply (f_equal length) in Hids. now rewrite !length_fmap in Hids.
Qed.

(** X5: [transferStock] never raises a stock and never touches a demand:
    position by position, the products after the call (returned or
    thrown) have a stock at most the one before and the demand of
    before. *)
Theorem transferStock_never_raises_stock :
  forall st productId fromWarehouse toWarehouse quantity,
    Forall2
      (fun p p' =>
         Product.stock p' <= Product.stock p
         /\ Product.demand p' = Product.demand p)
      (products st)
      (products
         (snd (Mutation.transferStock productId fromWarehouse toWarehouse
                 quantity st))).
Proof.
  intros st productId fromW toW quantity.
  assert (Hdiag : Forall2
                    (fun p p' =>
                       Product.stock p' <= Product.stock p
                       /\ Product.demand p' = Product.demand p)
                    (products st) (products st)).
  { apply Forall_Forall2_diag, Forall_forall. intros p _. split; [lia | auto]. }
  destruct (run_store_cases (TransferStock productId fromW toW quantity) st)
    as [Heq | (n & p & p' & Hn & Heq & Hrw)]; simpl in Heq; rewrite Heq;
    [exact Hdiag |].
  cbn [products]. rewrite <- (list_insert_id (products st) n p Hn) at 1.
  apply Forall2_insert; [exact Hdiag |].
  simpl in Hrw. destruct Hrw as (-> & _ & Hle). simpl.
  split; [exact Hle | auto].
Qed.

(** X6: a transfer that succeeded cannot be replayed: with
    [fromWarehouse] and [toWarehouse] different, the same request on the
    store the first one left throws [NotInWarehouse] and changes nothing. *)
Theorem transferStock_replay_rejected :
  forall st productId fromWarehouse toWarehouse quantity v,
    fromWarehouse <> toWarehouse ->
    fst (Mutation.transferStock productId fromWarehouse toWarehouse
           quantity st) = Returned v ->
    let st' :=
      snd (Mutation.transferStock productId fromWarehouse toWarehouse
             quantity st) in
    Mutation.transferStock productId fromWarehouse toWarehouse quantity st'
    = (Thrown (NotInWarehouse fromWarehouse), st').
Proof.
  intros st productId fromW toW quantity v Hne Hv st'. subst st'.
  destruct (findIndex_cases (has_id productId) (products st))
    as [[Hidx _] | (n & p & _ & Hm)].
  - rewrite transferStock_unknown in Hv by exact Hidx. discriminate.
  - rewrite (transferStock_known st productId fromW toW quantity n p Hm) in *.
    destruct (negb _); [discriminate |].
    destruct (getWarehouseById (warehouses st) toW) as [w |]; [| discriminate].
    destruct (quantity >? Product.stock p); [discriminate |].
    cbv zeta. cbn [snd].
    set (p' := Product.set_stock quantity (Product.set_warehouseId toW p)).
    assert (Hm' : first_match (has_id productId)
                    (products (mkStore (warehouses st)
                                 (<[n := p']> (products st)))) n p').
    { cbn [products]. eapply first_match_insert; [exact Hm |].
      destruct Hm as (_ & Hid & _). exact Hid. }
    rewrite (transferStock_known _ productId fromW toW quantity n p' Hm').
    subst p'. cbn [Product.warehouseId Product.set_stock
                   Product.set_warehouseId].
    destruct (String.eqb_spec toW fromW) as [Heq | _]; [congruence |].
    reflexivity.
Qed.

Lemma transferStock_replay_rejected_witness :
  Mutation.transferStock "P-1001" "BLR-A" "BLR-B" 100
    (snd (Mutation.transferStock "P-1001" "BLR-A" "BLR-B" 100 seedStore))
  = (Thrown (NotInWarehouse "BLR-A"),
     snd (Mutation.transferStock "P-1001" "BLR-A" "BLR-B" 100 seedStore)).
Proof.
  eapply (transferStock_replay_rejected seedStore "P-1001" "BLR-A" "BLR-B" 100).
  - discriminate.
  - reflexivity.
Defined.

(** X7: for [updateDemand] the last write wins: a call on the store left
    by an earlier call for the same id gives the result and the store of
    that call alone; with the same demand twice, the second call changes
    nothing more. *)
Theorem updateDemand_last_write_wins :
  forall st productId d1 d2,
    Mutation.updateDemand productId d2
      (snd (Mutation.updateDemand productId d1 st))
    = Mutation.updateDemand productId d2 st.
Proof.
  intros st productId d1 d2.
  destruct (findIndex_cases (has_id productId) (products st))
    as [[Hidx _] | (n & p & _ & Hm)].
  - now rewrite (updateDemand_unknown st productId d1 Hidx).
  - rewrite (updateDemand_known st productId d1 n p Hm). cbn [snd].
    set (p1 := Product.set_demand d1 p).
    assert (Hm1 : first_match (has_id productId)
                    (products (mkStore (warehouses st)
                                 (<[n := p1]> (products st)))) n p1).
    { cbn [products]. eapply first_match_insert; [exact Hm |].
      destruct Hm as (_ & Hid & _). exact Hid. }
    rewrite (updateDemand_known _ productId d2 n p1 Hm1).
    rewrite (updateDemand_known st productId d2 n p Hm).
    cbn [products warehouses]. now rewrite list_insert_insert_eq.
Qed.

(** ** Status and transfers *)

Lemma getStatus_cases stock demand :
  (stock > demand /\ getStatus stock demand = "healthy")
  \/ (stock = demand /\ getStatus stock demand = "low")
  \/ (stock < demand /\ getStatus stock demand = "critical").
Proof.
  unfold getStatus. rewrite Z.gtb_ltb.
  destruct (Z.ltb_spec demand stock); [left; split; [lia | reflexivity] |].
  destruct (Z.eqb_spec stock demand); right; [left | right]; split;
    auto; lia.
Qed.

(** X8: a transfer never improves the status of the product it moves:
    when [transferStock] returns, a status [healthy] in the result means
    the product was [healthy] before the call, a product [critical] before
    the call is [critical] in the result, and a product [low] before is
    not [healthy] after; a transfer of the whole stock keeps the status. *)
Theorem transfer_never_improves_status :
  forall st productId fromWarehouse toWarehouse quantity v n p,
    first_match (has_id productId) (products st) n p ->
    fst (Mutation.transferStock productId fromWarehouse toWarehouse
           quantity st) = Returned v ->
    let before := getStatus (Product.stock p) (Product.demand p) in
    (ProductView.status v = "healthy" -> before = "healthy")
    /\ (before = "critical" -> ProductView.status v = "critical")
    /\ (before = "low" -> ProductView.status v <> "healthy")
    /\ (quantity = Product.stock p -> ProductView.status v = before).
Proof.
  intros st productId fromW toW quantity v n p Hm Hv before. subst before.
  rewrite (transferStock_known st productId fromW toW quantity n p Hm) in Hv.
  destruct (negb _); [discriminate |].
  destruct (getWarehouseById (warehouses st) toW) as [w |]; [| discriminate].
  destruct (Z.gtb_spec quantity (Product.stock p)) as [Hgt | Hle];
    [discriminate |].
  cbv zeta in Hv. simpl in Hv. injection Hv as <-.
  cbn [ProductView.status spread].
  destruct (getStatus_cases quantity (Product.demand p))
    as [[Hq ->] | [[Hq ->] | [Hq ->]]];
    destruct (getStatus_cases (Product.stock p) (Product.demand p))
      as [[Hs ->] | [[Hs ->] | [Hs ->]]];
    repeat split; intros; try discriminate; try reflexivity; lia.
Qed.

Lemma transfer_never_improves_status_witness :
  exists v,
    fst (Mutation.transferStock "P-1001" "BLR-A" "BLR-B" 100 seedStore)
    = Returned v
    /\ getStatus 180 120 = "healthy"
    /\ ProductView.status v = "critical"
    /\ (ProductView.status v = "healthy" -> getStatus 180 120 = "healthy").
Proof.
  eexists. split; [reflexivity |]. split; [reflexivity |].
  split; [reflexivity |].
  apply (transfer_never_improves_status seedStore "P-1001" "BLR-A" "BLR-B"
           100 _ 0%nat
           (Product.mk "P-1001" "12mm Hex Bolt" "HEX-12-100" "BLR-A" 180 120)).
  - repeat split; try reflexivity. intros j y Hj. lia.
  - reflexivity.
Defined.

(** ** The [warehouses] query *)

Lemma run_calls_warehouses cs st :
  warehouses (run_calls cs st) = warehouses st.
Proof.
  revert st. induction cs as [| c cs IH]; intros st; simpl; [reflexivity |].
  rewrite IH. apply run_preserves_warehouses.
Qed.

(** X9: the [warehouses] query answers the same before and after any
    sequence of mutation calls, and every warehouse a mutation or a
    listing joins to a product is an element of that answer. *)
Theorem warehouses_query_stable :
  forall cs st,
    Query.warehouses (run_calls cs st) = Query.warehouses st
    /\ (forall c v w,
          fst (run c st) = Returned v ->
          ProductView.warehouse v = Some w -> w ∈ Query.warehouses st)
    /\ (forall x w,
          x ∈ joined st -> ProductView.warehouse x = Some w ->
          w ∈ Query.warehouses st).
Proof.
  intros cs st. unfold Query.warehouses.
  split; [apply run_calls_warehouses |]. split.
  - intros c v w Hv Hw.
    destruct (run_returned_shape c st v Hv) as (n & p' & _ & Hshape).
    rewrite Hshape in Hw. cbn [ProductView.warehouse spread] in Hw.
    rewrite run_preserves_warehouses in Hw.
    eapply getWarehouseById_Some, Hw.
  - intros x w Hx Hw. unfold joined in Hx.
    change (map ?f ?l) with (f <$> l) in Hx.
    apply list_elem_of_fmap in Hx as (p & -> & _).
    cbn [ProductView.warehouse spread] in Hw.
    eapply getWarehouseById_Some, Hw.
Qed.

(** ** Substrings *)

Lemma append_nil (s : string) : (EmptyString ++ s)%string = s.
Proof. reflexivity. Qed.

Lemma append_cons (c : ascii) (a s : string) :
  (String c a ++ s)%string = String c (a ++ s)%string.
Proof. reflexivity. Qed.

Lemma prefix_spec (a s : string) :
  String.prefix a s = true <-> exists post, s = (a ++ post)%string.
Proof.
  revert s. induction a as [| c a IH]; intros s.
  - split; [intros _; exists s; reflexivity |].
    intros _. destruct s; reflexivity.
  - destruct s as [| c' s]; simpl;
      [split; [discriminate | intros [post H]; discriminate] |].
    destruct (ascii_dec c c') as [-> | Hne].
    + rewrite IH. split; intros [post H]; exists post;
        rewrite append_cons in *; congruence.
    + split; [discriminate |]. intros [post H].
      rewrite append_cons in H. congruence.
Qed.

(** [includes s sub] holds exactly when [sub] occurs in [s]. *)
Lemma includes_spec (s sub : string) :
  includes s sub = true
  <-> exists pre post, s = (pre ++ sub ++ post)%string.
Proof.
  induction s as [| c s IH].
  - change (includes EmptyString sub)
      with (String.prefix sub EmptyString || false).
    rewrite orb_false_r, prefix_spec. split.
    + intros [post H]. exists EmptyString, post. exact H.
    + intros (pre & post & H). destruct pre; [| discriminate].
      exists post. exact H.
  - change (includes (String c s) sub)
      with (String.prefix sub (String c s) || includes s sub).
    rewrite orb_true_iff, prefix_spec, IH. split.
    + intros [[post H] | (pre & post & H)].
      * exists EmptyString, post. exact H.
      * exists (String c pre), post. rewrite append_cons. now rewrite H.
    + intros (pre & post & H). destruct pre as [| c' pre].
      * left. exists post. exact H.
      * right. exists pre, post. rewrite append_cons in H. congruence.
Qed.

(** ** What a listing returns *)

Lemma filter_sublist {A : Type} (f : A -> bool) (l : list A) :
  List.filter f l `sublist_of` l.
Proof.
  induction l as [| a l IH]; simpl; [constructor |].
  destruct (f a); now constructor.
Qed.

Lemma slice_sublist {A : Type} (l : list A) (start end_ : Z) :
  slice l start end_ `sublist_of` l.
Proof.
  unfold slice. etransitivity; [apply sublist_take | apply sublist_drop].
Qed.

Lemma elem_of_filter {A : Type} (f : A -> bool) (l : list A) (x : A) :
  x ∈ List.filter f l <-> x ∈ l /\ f x = true.
Proof. rewrite !list_elem_of_In. apply filter_In. Qed.

Lemma elem_of_joined st x :
  x ∈ joined st <->
  exists p,
    p ∈ products st
    /\ x = spread p
             (getWarehouseById (warehouses st) (Product.warehouseId p))
             (getStatus (Product.stock p) (Product.demand p)).
Proof.
  unfold joined. change (map ?f ?l) with (f <$> l).
  rewrite list_elem_of_fmap. split; intros (p & H1 & H2); eauto.
Qed.

Section Listings.
Variable toLowerCase : string -> string.

Lemma products_returned st fa pa conn :
  Query.products toLowerCase st fa pa = Returned conn ->
  fa <> Null /\ pa <> Null
  /\ conn
     = let l := filtered toLowerCase st (filters_of fa) in
       let page := page_number pa in
       let limit := limit_number pa in
       ProductConnection.mk
         (slice l page (page + limit))
         (Z.of_nat (length l))
         (PageInfo.mk (page + limit <? Z.of_nat (length l)) (page >? 0)).
Proof.
  intros H.
  assert (Hfa : fa <> Null)
    by (intros ->; rewrite products_null_filters in H; discriminate).
  assert (Hpa : pa <> Null)
    by (intros ->; rewrite products_null_pagination in H; discriminate).
  rewrite products_run in H by assumption.
  split; [exact Hfa |]. split; [exact Hpa |]. congruence.
Qed.

(** X10: the [products] query throws exactly when its [filters] or its
    [pagination] argument is [null], and then with a [TypeError]; for every
    other input, whatever the strings and integers in it, it returns. *)
Theorem products_throws_iff_null :
  forall st fa pa,
    ((exists e, Query.products toLowerCase st fa pa = Thrown e)
     <-> fa = Null \/ pa = Null)
    /\ (forall e, Query.products toLowerCase st fa pa = Thrown e ->
                  e = TypeError)
    /\ (fa <> Null -> pa <> Null ->
        exists conn, Query.products toLowerCase st fa pa = Returned conn).
Proof.
  intros st fa pa.
  assert (Hret : fa <> Null -> pa <> Null ->
                 exists conn,
                   Query.products toLowerCase st fa pa = Returned conn)
    by (intros Hfa Hpa; rewrite products_run by assumption; eauto).
  assert (Hnull : fa = Null \/ pa = Null ->
                  Query.products toLowerCase st fa pa = Thrown TypeError).
  { intros [-> | ->];
      [apply products_null_filters | apply products_null_pagination]. }
  assert (Hdec : (fa = Null \/ pa = Null) \/ (fa <> Null /\ pa <> Null)).
  { destruct fa; destruct pa; auto; right; split; discriminate. }
  split; [| split; [| exact Hret]].
  - split; [| intros H; rewrite (Hnull H); eauto].
    intros [e He]. destruct Hdec as [H | [Hfa Hpa]]; [exact H |].
    destruct (Hret Hfa Hpa) as [conn Hconn]. congruence.
  - intros e He. destruct Hdec as [H | [Hfa Hpa]].
    + rewrite (Hnull H) in He. congruence.
    + destruct (Hret Hfa Hpa) as [conn Hconn]. congruence.
Qed.

(** X11: whatever the filters and the pagination integers (negative ones
    included), the items of a listing are joined products of the store in
    store order, none repeated or invented: [items] is a subsequence of the
    list of all joined products; it is never longer than [total], and
    [total] is never more than the number of products. *)
Theorem products_items_in_store_order :
  forall st fa pa conn,
    Query.products toLowerCase st fa pa = Returned conn ->
    ProductConnection.items conn `sublist_of` joined st
    /\ Z.of_nat (length (ProductConnection.items conn))
       <= ProductConnection.total conn
    /\ 0 <= ProductConnection.total conn
       <= Z.of_nat (length (products st))
    /\ (forall x,
          x ∈ ProductConnection.items conn ->
          exists p,
            p ∈ products st
            /\ x = spread p
                     (getWarehouseById (warehouses st)
                        (Product.warehouseId p))
                     (getStatus (Product.stock p) (Product.demand p))).
Proof.
  intros st fa pa conn H.
  apply products_returned in H as (_ & _ & ->).
  cbn [ProductConnection.items ProductConnection.total].
  set (l := filtered toLowerCase st (filters_of fa)).
  assert (Hl : l `sublist_of` joined st) by apply filter_sublist.
  assert (Hitems : slice l (page_number pa)
                     (page_number pa + limit_number pa) `sublist_of` l)
    by apply slice_sublist.
  assert (Hjoined : length (joined st) = length (products st))
    by (unfold joined; apply length_map).
  split; [etransitivity; eassumption |].
  apply sublist_length in Hitems as Hlen1.
  apply sublist_length in Hl as Hlen2.
  split; [lia |]. split; [lia |].
  intros x Hx. apply elem_of_joined.
  eapply sublist_subseteq; [exact Hl |].
  eapply sublist_subseteq; [exact Hitems | exact Hx].
Qed.

(** X12: every item of a listing passes every filter that is in force (a
    field given with a non-empty string): the search text, in lower case,
    occurs in the lower-cased name or in the lower-cased sku of the item;
    the item's warehouseId is the one asked for; its status is the one
    asked for. *)
Theorem products_items_pass_filters :
  forall st fa pa conn x,
    Query.products toLowerCase st fa pa = Returned conn ->
    x ∈ ProductConnection.items conn ->
    (forall s,
       ProductFilters.search (filters_of fa) = Given s -> s <> EmptyString ->
       (exists pre post,
          toLowerCase (ProductView.name x)
          = (pre ++ toLowerCase s ++ post)%string)
       \/ (exists pre post,
             toLowerCase (ProductView.sku x)
             = (pre ++ toLowerCase s ++ post)%string))
    /\ (forall w,
          ProductFilters.warehouseId (filters_of fa) = Given w ->
          w <> EmptyString -> ProductView.warehouseId x = w)
    /\ (forall s,
          ProductFilters.status (filters_of fa) = Given s ->
          s <> EmptyString -> ProductView.status x = s).
Proof.
  intros st fa pa conn x H Hx.
  apply products_returned in H as (_ & _ & ->).
  cbn [ProductConnection.items] in Hx.
  apply (sublist_subseteq _ _ (slice_sublist _ _ _)) in Hx.
  apply elem_of_filter in Hx as [_ Hpass]. unfold passes in Hpass.
  apply andb_true_iff in Hpass as [Hsearch Hrest].
  apply andb_true_iff in Hrest as [Hwh Hstatus].
  assert (Hvalue : forall a s, a = Given s -> s <> EmptyString ->
                               filter_value a = Some s).
  { intros a s -> Hs. simpl. destruct (String.eqb_spec s EmptyString);
      [contradiction | reflexivity]. }
  split; [| split].
  - intros s Hs Hne. rewrite (Hvalue _ _ Hs Hne) in Hsearch.
    apply orb_true_iff in Hsearch as [Hin | Hin];
      apply includes_spec in Hin; auto.
  - intros w Hw Hne. rewrite (Hvalue _ _ Hw Hne) in Hwh.
    now apply String.eqb_eq.
  - intros s Hs Hne. rewrite (Hvalue _ _ Hs Hne) in Hstatus.
    now apply String.eqb_eq.
Qed.
End Listings.

Lemma products_items_in_store_order_witness :
  exists conn,
    Query.products ascii_toLowerCase seedStore
      (Given (ProductFilters.mk Absent (Given "BLR-A") Absent))
      (Given (PaginationInput.mk (Given (-1)) (Given 5)))
    = Returned conn
    /\ ProductConnection.items conn `sublist_of` joined seedStore.
Proof.
  let r := eval vm_compute in
             (Query.products ascii_toLowerCase seedStore
                (Given (ProductFilters.mk Absent (Given "BLR-A") Absent))
                (Given (PaginationInput.mk (Given (-1)) (Given 5)))) in
  match r with
  | Returned ?conn =>
      exists conn; split; [reflexivity |];
      apply (products_items_in_store_order ascii_toLowerCase seedStore
               (Given (ProductFilters.mk Absent (Given "BLR-A") Absent))
               (Given (PaginationInput.mk (Given (-1)) (Given 5))) conn);
      reflexivity
  end.
Defined.

Lemma products_items_pass_filters_witness :
  (exists pre post,
     ascii_toLowerCase "Steel Washer"
     = (pre ++ ascii_toLowerCase "STEEL" ++ post)%string)
  \/ (exists pre post,
        ascii_toLowerCase "WSR-08-500"
        = (pre ++ ascii_toLowerCase "STEEL" ++ post)%string).
Proof.
  let r := eval vm_compute in
             (Query.products ascii_toLowerCase seedStore
                (Given (ProductFilters.mk (Given "STEEL") Absent
                          (Given "critical")))
                (Given (PaginationInput.mk (Given 0) (Given 10)))) in
  match r with
  | Returned ?conn =>
      apply (proj1
               (products_items_pass_filters ascii_toLowerCase seedStore
                  (Given (ProductFilters.mk (Given "STEEL") Absent
                            (Given "critical")))
                  (Given (PaginationInput.mk (Given 0) (Given 10))) conn
                  (spread
                     (Product.mk "P-1002" "Steel Washer" "WSR-08-500"
                        "BLR-A" 50 80)
                     (Some (Warehouse.mk "BLR-A" "Bangalore Warehouse A"))
                     "critical")
                  eq_refl (list_elem_of_here _ _))
               "STEEL");
      [reflexivity | discriminate]
  end.
Defined.

Lemma filter_none {A : Type} (f : A -> bool) (l : list A) :
  (forall x, x ∈ l -> f x = false) -> List.filter f l = [].
Proof.
  induction l as [| a l IH]; intros H; simpl; [reflexivity |].
  rewrite (H a (list_elem_of_here a l)). apply IH.
  intros x Hx. apply H. now apply list_elem_of_further.
Qed.

Lemma joined_status st x :
  x ∈ joined st ->
  ProductView.status x = "healthy" \/ ProductView.status x = "low"
  \/ ProductView.status x = "critical".
Proof.
  intros Hx. apply elem_of_joined in Hx as (p & _ & ->).
  cbn [ProductView.status spread].
  destruct (getStatus_cases (Product.stock p) (Product.demand p))
    as [[_ ->] | [[_ ->] | [_ ->]]]; auto.
Qed.

Lemma slice_nil {A : Type} (start end_ : Z) : slice (@nil A) start end_ = [].
Proof. unfold slice. now rewrite drop_nil, take_nil. Qed.

Lemma slice_empty_range {A : Type} (l : list A) (start : Z) :
  slice l start (start + 0) = [].
Proof.
  unfold slice. rewrite Z.add_0_r.
  replace (Z.to_nat (Z.max _ 0)) with 0%nat by lia. apply take_0.
Qed.

(** The status filter splits a list of joined products three ways. *)
Lemma status_split (a : ProductView.t -> bool) (l : list ProductView.t) :
  (forall x, x ∈ l ->
     ProductView.status x = "healthy" \/ ProductView.status x = "low"
     \/ ProductView.status x = "critical") ->
  length (List.filter (fun x => a x) l)
  = (length (List.filter
               (fun x => a x && String.eqb (ProductView.status x) "healthy") l)
     + length (List.filter
                 (fun x => a x && String.eqb (ProductView.status x) "low") l)
     + length (List.filter
                 (fun x => a x && String.eqb (ProductView.status x) "critical")
                 l))%nat.
Proof.
  induction l as [| y l IH]; intros H; [reflexivity |].
  assert (IH' := IH (fun x Hx => H x (list_elem_of_further _ _ _ Hx))).
  simpl. destruct (a y); simpl; [| exact IH'].
  destruct (H y (list_elem_of_here y l)) as [-> | [-> | ->]]; simpl; lia.
Qed.

Section Pages.
Variable toLowerCase : string -> string.

(** X13: with [page >= 0] and [limit >= 0], a listing whose [hasNextPage]
    is true holds exactly [limit] items, and one whose [hasNextPage] is
    false holds every filtered item from offset [page] on; so the listing
    at [page = 0] with [hasNextPage] false shows every product of the
    store that passes the filters. *)
Theorem products_pages_are_full :
  forall st fa pa conn,
    Query.products toLowerCase st fa pa = Returned conn ->
    0 <= page_number pa -> 0 <= limit_number pa ->
    let l := filtered toLowerCase st (filters_of fa) in
    let more := PageInfo.hasNextPage (ProductConnection.pageInfo conn) in
    (more = true ->
     Z.of_nat (length (ProductConnection.items conn)) = limit_number pa)
    /\ (more = false ->
        ProductConnection.items conn = drop (Z.to_nat (page_number pa)) l)
    /\ (more = false -> page_number pa = 0 ->
        forall p,
          p ∈ products st ->
          let x := spread p
                     (getWarehouseById (warehouses st) (Product.warehouseId p))
                     (getStatus (Product.stock p) (Product.demand p)) in
          passes toLowerCase (filters_of fa) x = true ->
          x ∈ ProductConnection.items conn).
Proof.
  intros st fa pa conn H Hpage Hlimit l more. subst more.
  apply products_returned in H as (_ & _ & ->).
  cbn [ProductConnection.items ProductConnection.pageInfo
       PageInfo.hasNextPage].
  fold l. rewrite slice_page by assumption. unfold page_of.
  assert (Hfull : (page_number pa + limit_number pa <? Z.of_nat (length l))
                  = false ->
                  take (Z.to_nat (limit_number pa))
                    (drop (Z.to_nat (page_number pa)) l)
                  = drop (Z.to_nat (page_number pa)) l).
  { intros Hmore. apply Z.ltb_ge in Hmore.
    apply take_ge. rewrite length_drop. lia. }
  split; [| split].
  - intros Hmore. apply Z.ltb_lt in Hmore.
    rewrite length_take, length_drop. lia.
  - exact Hfull.
  - intros Hmore H0 p Hp Hx. rewrite (Hfull Hmore), H0. simpl.
    rewrite drop_0. unfold l, filtered. apply elem_of_filter.
    split; [| exact Hx]. apply elem_of_joined. eauto.
Qed.

(** X14: a status filter that is none of [healthy], [low], [critical]
    (and not empty) matches nothing: the listing has no item and total 0,
    whatever the other filters and the pagination. *)
Theorem products_unknown_status_empty :
  forall st search warehouseId s pa,
    pa <> Null ->
    s <> EmptyString -> s <> "healthy" -> s <> "low" -> s <> "critical" ->
    exists conn,
      Query.products toLowerCase st
        (Given (ProductFilters.mk search warehouseId (Given s))) pa
      = Returned conn
      /\ ProductConnection.items conn = []
      /\ ProductConnection.total conn = 0.
Proof.
  intros st search warehouseId s pa Hpa Hne Hh Hl Hc.
  eexists. split; [apply products_run; [discriminate | exact Hpa] |].
  cbn [ProductConnection.items ProductConnection.total filters_of].
  assert (Hnone : filtered toLowerCase st
                    (ProductFilters.mk search warehouseId (Given s)) = []).
  { apply filter_none. intros x Hx. unfold passes.
    cbn [ProductFilters.status filter_value].
    destruct (String.eqb_spec s EmptyString) as [? | _]; [contradiction |].
    destruct (String.eqb_spec (ProductView.status x) s) as [Heq | _];
      [| now rewrite !andb_false_r].
    destruct (joined_status st x Hx) as [Hx' | [Hx' | Hx']]; congruence. }
  rewrite Hnone. split; [apply slice_nil | reflexivity].
Qed.

(** X15: the three statuses partition a listing: for the same search and
    warehouse filters, the total without a status filter is the sum of the
    totals with status [healthy], [low] and [critical]. *)
Theorem products_status_partition :
  forall st search warehouseId pa,
    pa <> Null ->
    exists c ch cl cc,
      Query.products toLowerCase st
        (Given (ProductFilters.mk search warehouseId Absent)) pa = Returned c
      /\ Query.products toLowerCase st
           (Given (ProductFilters.mk search warehouseId (Given "healthy"))) pa
         = Returned ch
      /\ Query.products toLowerCase st
           (Given (ProductFilters.mk search warehouseId (Given "low"))) pa
         = Returned cl
      /\ Query.products toLowerCase st
           (Given (ProductFilters.mk search warehouseId (Given "critical"))) pa
         = Returned cc
      /\ ProductConnection.total c
         = ProductConnection.total ch + ProductConnection.total cl
           + ProductConnection.total cc.
Proof.
  intros st search warehouseId pa Hpa.
  do 4 eexists.
  repeat (split; [apply products_run; [discriminate | exact Hpa] |]).
  cbn [ProductConnection.total filters_of].
  set (a := fun p : ProductView.t =>
              match filter_value search with
              | Some s =>
                  includes (toLowerCase (ProductView.name p)) (toLowerCase s)
                  || includes (toLowerCase (ProductView.sku p)) (toLowerCase s)
              | None => true
              end
              && match filter_value warehouseId with
                 | Some w => String.eqb (ProductView.warehouseId p) w
                 | None => true
                 end).
  assert (Hall : filtered toLowerCase st
                   (ProductFilters.mk search warehouseId Absent)
                 = List.filter (fun x => a x) (joined st)).
  { apply filter_ext. intros x. unfold passes, a. simpl.
    now rewrite andb_true_r. }
  assert (Hone : forall s,
            s <> EmptyString ->
            filtered toLowerCase st
              (ProductFilters.mk search warehouseId (Given s))
            = List.filter
                (fun x => a x && String.eqb (ProductView.status x) s)
                (joined st)).
  { intros s Hs. apply filter_ext. intros x. unfold passes, a.
    cbn [ProductFilters.status ProductFilters.search
         ProductFilters.warehouseId filter_value].
    destruct (String.eqb_spec s EmptyString) as [? | _]; [contradiction |].
    now rewrite andb_assoc. }
  rewrite Hall, !Hone by discriminate.
  pose proof (status_split a (joined st) (joined_status st)) as Hsplit.
  lia.
Qed.
End Pages.

Lemma products_pages_are_full_witness :
  exists conn,
    Query.products ascii_toLowerCase seedStore Absent
      (Given (PaginationInput.mk (Given 4) (Given 4))) = Returned conn
    /\ PageInfo.hasNextPage (ProductConnection.pageInfo conn) = false
    /\ ProductConnection.items conn
       = drop 4 (filtered ascii_toLowerCase seedStore ProductFilters.empty).
Proof.
  let r := eval vm_compute in
             (Query.products ascii_toLowerCase seedStore Absent
                (Given (PaginationInput.mk (Given 4) (Given 4)))) in
  match r with
  | Returned ?conn =>
      exists conn; split; [reflexivity |]; split; [reflexivity |];
      apply (products_pages_are_full ascii_toLowerCase seedStore Absent
               (Given (PaginationInput.mk (Given 4) (Given 4))) conn);
      [reflexivity | vm_compute; discriminate | vm_compute; discriminate
      | reflexivity]
  end.
Defined.

Lemma products_unknown_status_empty_witness :
  exists conn,
    Query.products ascii_toLowerCase seedStore
      (Given (ProductFilters.mk Absent Absent (Given "Critical"))) Absent
    = Returned conn
    /\ ProductConnection.items conn = []
    /\ ProductConnection.total conn = 0.
Proof.
  apply (products_unknown_status_empty ascii_toLowerCase seedStore
           Absent Absent "Critical" Absent); discriminate.
Defined.

Lemma products_status_partition_witness :
  exists c ch cl cc,
    Query.products ascii_toLowerCase seedStore
      (Given (ProductFilters.mk (Given "steel") Absent Absent)) Absent
    = Returned c
    /\ Query.products ascii_toLowerCase seedStore
         (Given (ProductFilters.mk (Given "steel") Absent (Given "healthy")))
         Absent
       = Returned ch
    /\ Query.products ascii_toLowerCase seedStore
         (Given (ProductFilters.mk (Given "steel") Absent (Given "low")))
         Absent
       = Returned cl
    /\ Query.products ascii_toLowerCase seedStore
         (Given (ProductFilters.mk (Given "steel") Absent (Given "critical")))
         Absent
       = Returned cc
    /\ ProductConnection.total c
       = ProductConnection.total ch + ProductConnection.total cl
         + ProductConnection.total cc.
Proof.
  apply (products_status_partition ascii_toLowerCase seedStore
           (Given "steel") Absent Absent).
  discriminate.
Defined.

Section Edges.
Variable toLowerCase : string -> string.

(** X16: a [limit] of [0], or given as [null] (which does not take the
    default 100), yields no item at any [page], negative or not; [total]
    still counts the filtered products and [hasNextPage] is true exactly
    when [page < total]. *)
Theorem products_zero_limit_empty :
  forall st fa page limit,
    fa <> Null ->
    limit = Null \/ limit = Given 0 ->
    exists conn,
      Query.products toLowerCase st fa
        (Given (PaginationInput.mk page limit)) = Returned conn
      /\ ProductConnection.items conn = []
      /\ ProductConnection.total conn
         = Z.of_nat (length (filtered toLowerCase st (filters_of fa)))
      /\ (PageInfo.hasNextPage (ProductConnection.pageInfo conn) = true
          <-> number_or 0 page < ProductConnection.total conn).
Proof.
  intros st fa page limit Hfa Hlimit.
  eexists. split; [apply products_run; [exact Hfa | discriminate] |].
  cbn [ProductConnection.items ProductConnection.total
       ProductConnection.pageInfo PageInfo.hasNextPage].
  assert (Hzero : limit_number (Given (PaginationInput.mk page limit)) = 0)
    by (destruct Hlimit as [-> | ->]; reflexivity).
  rewrite Hzero.
  split; [apply slice_empty_range |]. split; [reflexivity |].
  rewrite Z.add_0_r. apply Z.ltb_lt.
Qed.

(** X17: a negative [page] counts from the end of the filtered sequence,
    as [slice] does, while [hasPreviousPage] is false: when
    [page + limit >= total] the items are the last [-page] filtered items
    (all of them when there are fewer); when [page + limit < 0], with
    [limit >= 0] and [-page <= total], they are the [limit] items from
    offset [total + page] on. *)
Theorem products_negative_page_from_end :
  forall st fa pa conn,
    Query.products toLowerCase st fa pa = Returned conn ->
    page_number pa < 0 ->
    let l := filtered toLowerCase st (filters_of fa) in
    let total := Z.of_nat (length l) in
    PageInfo.hasPreviousPage (ProductConnection.pageInfo conn) = false
    /\ (total <= page_number pa + limit_number pa ->
        ProductConnection.items conn
        = drop (Z.to_nat (total + page_number pa)) l)
    /\ (0 <= total + page_number pa -> 0 <= limit_number pa ->
        page_number pa + limit_number pa < 0 ->
        ProductConnection.items conn
        = page_of l (total + page_number pa) (limit_number pa)).
Proof.
  intros st fa pa conn H Hpage l total.
  apply products_returned in H as (_ & _ & ->).
  cbn [ProductConnection.items ProductConnection.pageInfo
       PageInfo.hasPreviousPage].
  fold l. split; [| split].
  - rewrite Z.gtb_ltb. apply Z.ltb_ge. lia.
  - intros Hend. unfold slice. fold total.
    destruct (Z.ltb_spec (page_number pa) 0) as [_ | ?]; [| lia].
    destruct (Z.ltb_spec (page_number pa + limit_number pa) 0)
      as [? | _]; [lia |].
    replace (Z.to_nat (Z.max (total + page_number pa) 0))
      with (Z.to_nat (total + page_number pa)) by lia.
    apply take_ge. rewrite length_drop. unfold total. lia.
  - intros Hstart Hlimit Hend. unfold slice, page_of. fold total.
    destruct (Z.ltb_spec (page_number pa) 0) as [_ | ?]; [| lia].
    destruct (Z.ltb_spec (page_number pa + limit_number pa) 0)
      as [_ | ?]; [| lia].
    f_equal; [| f_equal]; lia.
Qed.

(** X18: where every product's warehouseId is the id of a warehouse (as
    in every store reached from the seed), no joined record has an
    undefined warehouse: every item of a listing and every result of a
    mutation carries a warehouse, and its id is the record's
    warehouseId. *)
Theorem joined_warehouse_defined :
  forall st,
    warehouses_resolve st ->
    (forall fa pa conn x,
       Query.products toLowerCase st fa pa = Returned conn ->
       x ∈ ProductConnection.items conn ->
       exists w,
         ProductView.warehouse x = Some w
         /\ Warehouse.id w = ProductView.warehouseId x)
    /\ (forall c v,
          fst (run c st) = Returned v ->
          exists w,
            ProductView.warehouse v = Some w
            /\ Warehouse.id w = ProductView.warehouseId v).
Proof.
  intros st Hinv.
  assert (Hjoin : forall st' p,
            warehouses_resolve st' -> p ∈ products st' ->
            exists w,
              getWarehouseById (warehouses st') (Product.warehouseId p)
              = Some w
              /\ Warehouse.id w = Product.warehouseId p).
  { intros st' p Hinv' Hp. specialize (Hinv' p Hp).
    apply getWarehouseById_exists in Hinv' as [w Hw]. exists w.
    split; [exact Hw |]. eapply getWarehouseById_Some, Hw. }
  split.
  - intros fa pa conn x H Hx.
    apply products_returned in H as (_ & _ & ->).
    cbn [ProductConnection.items] in Hx.
    apply (sublist_subseteq _ _ (slice_sublist _ _ _)) in Hx.
    apply elem_of_filter in Hx as [Hx _].
    apply elem_of_joined in Hx as (p & Hp & ->).
    cbn [ProductView.warehouse ProductView.warehouseId spread].
    now apply Hjoin.
  - intros c v Hv.
    destruct (run_returned_shape c st v Hv) as (n & p' & Hn & ->).
    cbn [ProductView.warehouse ProductView.warehouseId spread].
    apply Hjoin.
    + now apply run_preserves_warehouses_resolve.
    + eapply list_elem_of_lookup_2, Hn.
Qed.
End Edges.

Lemma products_zero_limit_empty_witness :
  exists conn,
    Query.products ascii_toLowerCase seedStore Absent
      (Given (PaginationInput.mk (Given 2) Null)) = Returned conn
    /\ ProductConnection.items conn = []
    /\ ProductConnection.total conn = 6.
Proof.
  destruct (products_zero_limit_empty ascii_toLowerCase seedStore Absent
              (Given 2) Null) as (conn & Hrun & Hitems & Htotal & _).
  - discriminate.
  - now left.
  - exists conn. split; [exact Hrun |]. split; [exact Hitems | exact Htotal].
Defined.

Lemma products_negative_page_from_end_witness :
  map ProductView.id (items_at ascii_toLowerCase seedStore Absent (-4) 2)
  = ["P-1003"; "P-1004"]
  /\ items_at ascii_toLowerCase seedStore Absent (-4) 2
     = page_of (filtered ascii_toLowerCase seedStore ProductFilters.empty)
         (6 + -4) 2.
Proof.
  split; [reflexivity |].
  let r := eval vm_compute in
             (Query.products ascii_toLowerCase seedStore Absent
                (Given (PaginationInput.mk (Given (-4)) (Given 2)))) in
  match r with
  | Returned ?conn =>
      apply (products_negative_page_from_end ascii_toLowerCase seedStore
               Absent (Given (PaginationInput.mk (Given (-4)) (Given 2)))
               conn);
      [reflexivity | vm_compute; reflexivity | vm_compute; discriminate
      | vm_compute; discriminate | vm_compute; reflexivity]
  end.
Defined.

Lemma joined_warehouse_defined_witness :
  exists w,
    ProductView.warehouse
      (spread (Product.mk "P-1002" "Steel Washer" "WSR-08-500" "BLR-A" 50 40)
         (Some (Warehouse.mk "BLR-A" "Bangalore Warehouse A")) "healthy")
    = Some w
    /\ Warehouse.id w = "BLR-A".
Proof.
  apply (proj2 (joined_warehouse_defined ascii_toLowerCase seedStore
                  seedStore_warehouses_resolve)
           (UpdateDemand "P-1002" 40)).
  reflexivity.
Defined.

(** ** Listings after a transfer *)

Section AfterTransfer.
Variable toLowerCase : string -> string.

(** X19: a listing by warehouse follows a transfer.  In a store with
    unique product ids, after [transferStock] has moved a product from
    [fromWarehouse] to a different [toWarehouse], no listing filtered by
    [fromWarehouse] shows a product with that id, and the listing filtered
    by [toWarehouse] with the default pagination shows the returned record
    (when it reports no next page). *)
Theorem transfer_moves_listing :
  forall st productId fromWarehouse toWarehouse quantity v,
    unique_ids st ->
    fromWarehouse <> toWarehouse ->
    fromWarehouse <> EmptyString -> toWarehouse <> EmptyString ->
    fst (Mutation.transferStock productId fromWarehouse toWarehouse
           quantity st) = Returned v ->
    let st' :=
      snd (Mutation.transferStock productId fromWarehouse toWarehouse
             quantity st) in
    (forall pa conn x,
       Query.products toLowerCase st'
         (Given (ProductFilters.mk Absent (Given fromWarehouse) Absent)) pa
       = Returned conn ->
       x ∈ ProductConnection.items conn -> ProductView.id x <> productId)
    /\ (forall conn,
          Query.products toLowerCase st'
            (Given (ProductFilters.mk Absent (Given toWarehouse) Absent))
            Absent
          = Returned conn ->
          PageInfo.hasNextPage (ProductConnection.pageInfo conn) = false ->
          v ∈ ProductConnection.items conn).
Proof.
  intros st productId fromW toW quantity v Huniq Hne HfromE HtoE Hv st'.
  pose proof (run_preserves_unique_ids
                (TransferStock productId fromW toW quantity) st Huniq)
    as Huniq'.
  pose proof (run_returned_shape
                (TransferStock productId fromW toW quantity) st v Hv)
    as (n & p' & Hn & Hshape).
  simpl in Huniq', Hn, Hshape. fold st' in Huniq', Hn, Hshape.
  assert (Hlisted : joined st' !! n = Some v)
    by (rewrite Hshape; now apply joined_lookup).
  assert (Hp' : Product.id p' = productId /\ Product.warehouseId p' = toW).
  { subst st'.
    destruct (findIndex_cases (has_id productId) (products st))
      as [[Hidx _] | (m & p & _ & Hm)].
    - rewrite transferStock_unknown in Hv by exact Hidx. discriminate.
    - rewrite (transferStock_known st productId fromW toW quantity m p Hm)
        in Hv, Hshape.
      destruct (negb _); [discriminate |].
      destruct (getWarehouseById (warehouses st) toW); [| discriminate].
      destruct (quantity >? Product.stock p); [discriminate |].
      cbv zeta in Hv. simpl in Hv. injection Hv as <-.
      apply (f_equal ProductView.id) in Hshape as Hid.
      apply (f_equal ProductView.warehouseId) in Hshape as Hwid.
      simpl in Hid, Hwid. destruct Hm as (_ & Hpid & _).
      apply has_id_true in Hpid. split; congruence. }
  destruct Hp' as [Hid' Hwid'].
  assert (Hvalue : forall s, s <> EmptyString ->
                             filter_value (Given s) = Some s).
  { intros s Hs. simpl. destruct (String.eqb_spec s EmptyString);
      [contradiction | reflexivity]. }
  split.
  - intros pa conn x H Hx Hxid.
    apply products_returned in H as (_ & _ & ->).
    cbn [ProductConnection.items filters_of] in Hx.
    apply (sublist_subseteq _ _ (slice_sublist _ _ _)) in Hx.
    apply elem_of_filter in Hx as [Hx Hpass].
    unfold passes in Hpass.
    cbn [ProductFilters.search ProductFilters.warehouseId
         ProductFilters.status] in Hpass.
    rewrite (Hvalue _ HfromE) in Hpass. simpl in Hpass.
    rewrite andb_true_r in Hpass. apply String.eqb_eq in Hpass.
    apply elem_of_joined in Hx as (p'' & Hp'' & ->).
    cbn [ProductView.id ProductView.warehouseId spread] in Hxid, Hpass.
    apply list_elem_of_lookup in Hp'' as [i Hi].
    assert (i = n) as ->.
    { apply (NoDup_lookup (Product.id <$> products st') i n productId Huniq').
      - now rewrite list_lookup_fmap, Hi, <- Hxid.
      - now rewrite list_lookup_fmap, Hn, <- Hid'. }
    congruence.
  - intros conn H Hmore.
    apply products_returned in H as (_ & _ & ->).
    cbn [ProductConnection.items ProductConnection.pageInfo
         PageInfo.hasNextPage filters_of] in *.
    apply Z.ltb_ge in Hmore.
    rewrite slice_page by (vm_compute; discriminate).
    change (page_number Absent) with 0 in *.
    rewrite page_of_all by lia.
    apply elem_of_filter. split.
    + eapply list_elem_of_lookup_2, Hlisted.
    + unfold passes.
      cbn [ProductFilters.search ProductFilters.warehouseId
           ProductFilters.status].
      rewrite (Hvalue _ HtoE). simpl. rewrite andb_true_r.
      apply String.eqb_eq. rewrite Hshape. simpl. exact Hwid'.
Qed.
End AfterTransfer.

Lemma transfer_moves_listing_witness :
  exists conn,
    Query.products ascii_toLowerCase
      (snd (Mutation.transferStock "P-1001" "BLR-A" "BLR-B" 100 seedStore))
      (Given (ProductFilters.mk Absent (Given "BLR-B") Absent)) Absent
    = Returned conn
    /\ spread
         (Product.mk "P-1001" "12mm Hex Bolt" "HEX-12-100" "BLR-B" 100 120)
         (Some (Warehouse.mk "BLR-B" "Bangalore Warehouse B")) "critical"
       ∈ ProductConnection.items conn.
Proof.
  let r := eval vm_compute in
             (Query.products ascii_toLowerCase
                (snd (Mutation.transferStock "P-1001" "BLR-A" "BLR-B" 100
                        seedStore))
                (Given (ProductFilters.mk Absent (Given "BLR-B") Absent))
                Absent) in
  match r with
  | Returned ?conn =>
      exists conn; split; [reflexivity |];
      apply (transfer_moves_listing ascii_toLowerCase seedStore
               "P-1001" "BLR-A" "BLR-B" 100);
      [exact seedStore_unique_ids | discriminate | discriminate
      | discriminate | reflexivity | reflexivity | reflexivity]
  end.
Defined.

(** ** The [kpis] series *)

Section Kpis.
Variable World : Type.
Variable isoDateDaysAgo : Z -> World -> string * World.
Variable floorRandom : Z -> World -> Z * World.

Local Abbreviation kpis_loop :=
  (Query.kpis_loop World isoDateDaysAgo floorRandom).
Local Abbreviation kpis := (Query.kpis World isoDateDaysAgo floorRandom).

(** The points pushed before an iteration stay where they are, and the
    remaining iterations add one point each. *)
Lemma kpis_loop_app n acc w :
  fst (kpis_loop n acc w) = (acc ++ fst (kpis_loop n [] w))%list
  /\ length (fst (kpis_loop n [] w)) = n.
Proof.
  revert acc w. induction n as [| m IH]; intros acc w; simpl.
  - split; [now rewrite app_nil_r | reflexivity].
  - destruct (isoDateDaysAgo (Z.of_nat m) w) as [date w1].
    destruct (floorRandom 100 w1) as [r1 w2].
    destruct (floorRandom 80 w2) as [r2 w3].
    destruct (IH (acc ++ [KPI.mk date (300 + r1) (250 + r2)])%list w3)
      as [Happ _].
    destruct (IH [KPI.mk date (300 + r1) (250 + r2)] w3) as [Hone Hlen].
    split.
    + rewrite Happ, Hone, <- app_assoc. reflexivity.
    + rewrite Hone. simpl. now rewrite Hlen.
Qed.

(** X20: [kpis] returns 7 points for the range [7d], 14 for [14d] and 30
    for any other range string, whatever the clock and the random
    generator answer. *)
Theorem kpis_length :
  forall range w,
    (range = "7d" -> length (fst (kpis range w)) = 7%nat)
    /\ (range = "14d" -> length (fst (kpis range w)) = 14%nat)
    /\ (range <> "7d" -> range <> "14d" ->
        length (fst (kpis range w)) = 30%nat).
Proof.
  intros range w. unfold Query.kpis.
  split; [| split].
  - intros ->. apply (kpis_loop_app 7 [] w).
  - intros ->. apply (kpis_loop_app 14 [] w).
  - intros H7 H14.
    destruct (String.eqb_spec range "7d") as [? | _]; [contradiction |].
    destruct (String.eqb_spec range "14d") as [? | _]; [contradiction |].
    apply (kpis_loop_app 30 [] w).
Qed.

(** X21: if the random requests are answered within their bounds
    ([0 <= Math.floor(Math.random() * n) < n]), every point of the series
    has [300 <= stock < 400] and [250 <= demand < 330]. *)
Theorem kpis_bounds :
  (forall n w, 0 < n -> 0 <= fst (floorRandom n w) < n) ->
  forall range w k,
    k ∈ fst (kpis range w) ->
    300 <= KPI.stock k < 400 /\ 250 <= KPI.demand k < 330.
Proof.
  intros Hrandom range w k. unfold Query.kpis.
  generalize (Z.to_nat
                (if String.eqb range "7d" then 7
                 else if String.eqb range "14d" then 14 else 30)).
  intros n. revert w.
  induction n as [| m IH]; intros w; simpl; [intros H; inversion H |].
  destruct (isoDateDaysAgo (Z.of_nat m) w) as [date w1].
  pose proof (Hrandom 100 w1 ltac:(lia)) as H1.
  destruct (floorRandom 100 w1) as [r1 w2].
  pose proof (Hrandom 80 w2 ltac:(lia)) as H2.
  destruct (floorRandom 80 w2) as [r2 w3].
  simpl in H1, H2.
  destruct (kpis_loop_app m [KPI.mk date (300 + r1) (250 + r2)] w3)
    as [Happ _].
  rewrite Happ.
  intros Hk. apply elem_of_cons in Hk as [-> | Hk]; [simpl; lia |].
  exact (IH w3 Hk).
Qed.

(** X22: if the clock names the day [i] days ago [fmt i] throughout the
    call, the dates of the series are [fmt (days - 1)], ..., [fmt 1],
    [fmt 0] in this order: the series runs from the oldest day to today. *)
Theorem kpis_dates_ascending :
  forall fmt : Z -> string,
    (forall i w, fst (isoDateDaysAgo i w) = fmt i) ->
    forall range w,
      let days := length (fst (kpis range w)) in
      KPI.date <$> fst (kpis range w)
      = (fun k : nat => fmt (Z.of_nat days - 1 - Z.of_nat k)) <$> seq 0 days.
Proof.
  intros fmt Hclock range w days. subst days. unfold Query.kpis.
  generalize (Z.to_nat
                (if String.eqb range "7d" then 7
                 else if String.eqb range "14d" then 14 else 30)).
  intros n. rewrite (proj2 (kpis_loop_app n [] w)).
  revert w. induction n as [| m IH]; intros w; [reflexivity |].
  simpl Query.kpis_loop.
  pose proof (Hclock (Z.of_nat m) w) as Hdate.
  destruct (isoDateDaysAgo (Z.of_nat m) w) as [date w1].
  destruct (floorRandom 100 w1) as [r1 w2].
  destruct (floorRandom 80 w2) as [r2 w3].
  simpl in Hdate. subst date.
  destruct (kpis_loop_app m [KPI.mk (fmt (Z.of_nat m)) (300 + r1) (250 + r2)]
              w3) as [Happ _].
  rewrite Happ, fmap_app, (IH w3).
  change (seq 0 (S m)) with (0%nat :: seq 1 m).
  rewrite <- (fmap_S_seq 0 m), !fmap_cons, <- list_fmap_compose.
  cbn [fmap list_fmap app KPI.date]. f_equal; [f_equal; lia |].
  apply list_fmap_ext. intros i k _. simpl. f_equal. lia.
Qed.
End Kpis.

Lemma kpis_bounds_witness :
  300 <= 300 + 0 < 400 /\ 250 <= 250 + 1 < 330.
Proof.
  apply (kpis_bounds nat counter_isoDateDaysAgo counter_floorRandom)
    with (range := "7d") (w := 0%nat)
         (k := KPI.mk "earlier" (300 + 0) (250 + 1)).
  - intros n w Hn. unfold counter_floorRandom. simpl.
    apply Z.mod_pos_bound. exact Hn.
  - apply list_elem_of_here.
Defined.

Lemma kpis_dates_ascending_witness :
  KPI.date
    <$> fst (Query.kpis nat counter_isoDateDaysAgo counter_floorRandom
               "7d" 0%nat)
  = ["earlier"; "earlier"; "earlier"; "earlier"; "earlier"; "earlier";
     "today"].
Proof.
  apply (kpis_dates_ascending nat counter_isoDateDaysAgo counter_floorRandom
           day_label).
  intros i w. reflexivity.
Defined.

(** ** Successive pages *)

Section AllPages.
Variable toLowerCase : string -> string.

(** X23: for a positive [limit], the listings at the offsets [0],
    [limit], [2 * limit], ..., [(k - 1) * limit], one after the other, make
    up the first [k * limit] filtered items, each once and in order; they
    make up the whole filtered sequence as soon as [k * limit] reaches its
    length. *)
Theorem successive_pages_concat :
  forall st fa limit (k : nat),
    fa <> Null -> 0 < limit ->
    let l := filtered toLowerCase st (filters_of fa) in
    let pages :=
      concat
        (map (fun j : nat =>
                items_at toLowerCase st fa (Z.of_nat j * limit) limit)
             (seq 0 k)) in
    pages = take (k * Z.to_nat limit) l
    /\ (Z.of_nat (length l) <= Z.of_nat k * limit -> pages = l).
Proof.
  intros st fa limit k Hfa Hlimit l pages. subst pages.
  assert (Hpages :
            concat
              (map (fun j : nat =>
                      items_at toLowerCase st fa (Z.of_nat j * limit) limit)
                 (seq 0 k))
            = take (k * Z.to_nat limit) l).
  { induction k as [| k IH]; [reflexivity |].
    rewrite seq_S, map_app, concat_app, IH. simpl.
    rewrite app_nil_r, items_at_page by (assumption || lia).
    fold l. unfold page_of.
    replace (Z.to_nat (Z.of_nat k * limit)) with (k * Z.to_nat limit)%nat
      by lia.
    rewrite take_take_drop. f_equal. lia. }
  split; [exact Hpages |].
  intros Hall. rewrite Hpages. apply take_ge. nia.
Qed.
End AllPages.

Lemma successive_pages_concat_witness :
  concat
    (map (fun j : nat =>
            items_at ascii_toLowerCase seedStore Absent (Z.of_nat j * 4) 4)
       (seq 0 2))
  = filtered ascii_toLowerCase seedStore ProductFilters.empty.
Proof.
  apply (successive_pages_concat ascii_toLowerCase seedStore Absent 4 2).
  - discriminate.
  - lia.
  - simpl. lia.
Defined.

(** ** Requests that do not interfere *)

Lemma insert_keeps_first {A : Type} (f : A -> bool) (l : list A) m y z n x :
  l !! m = Some z -> f y = f z -> n <> m ->
  first_match f l n x -> first_match f (<[m := y]> l) n x.
Proof.
  intros Hm Hf Hnm (Hn & Hfx & Hbefore). repeat split; [| exact Hfx |].
  - now rewrite list_lookup_insert_ne by auto.
  - intros j w Hj Hw.
    apply list_lookup_insert_Some in Hw as [(Heq & <- & _) | (_ & Hw)].
    + rewrite Hf. apply (Hbefore j); [exact Hj | now rewrite <- Heq].
    + now apply (Hbefore j).
Qed.

Lemma insert_keeps_none {A : Type} (f : A -> bool) (l : list A) m y z :
  l !! m = Some z -> f y = f z ->
  (forall x, x ∈ l -> f x = false) ->
  forall x, x ∈ <[m := y]> l -> f x = false.
Proof.
  intros Hm Hf Hall x Hx. apply elem_of_insert_inv in Hx as [-> | Hx].
  - rewrite Hf. apply Hall. eapply list_elem_of_lookup_2, Hm.
  - now apply Hall.
Qed.

Lemma run_store_unknown c st :
  (forall x, x ∈ products st -> has_id (call_id c) x = false) ->
  snd (run c st) = st.
Proof.
  intros Hall. apply findIndex_none in Hall.
  destruct c; simpl in *;
    [now rewrite updateDemand_unknown | now rewrite transferStock_unknown].
Qed.

Lemma run_store_known c st n p :
  first_match (has_id (call_id c)) (products st) n p ->
  snd (run c st)
  = match effect c (warehouses st) p with
    | Some p' => mkStore (warehouses st) (<[n := p']> (products st))
    | None => st
    end.
Proof.
  intros Hm. destruct c as [productId d | productId fromW toW q]; simpl in *.
  - now rewrite (updateDemand_known st productId d n p Hm).
  - rewrite (transferStock_known st productId fromW toW q n p Hm).
    destruct (negb _); [reflexivity |].
    destruct (getWarehouseById (warehouses st) toW); [| reflexivity].
    destruct (q >? Product.stock p); reflexivity.
Qed.

Lemma effect_id c ws p p' :
  effect c ws p = Some p' -> Product.id p' = Product.id p.
Proof.
  destruct c as [productId d | productId fromW toW q]; simpl.
  - now intros [= <-].
  - destruct (negb _); [discriminate |].
    destruct (getWarehouseById ws toW); [| discriminate].
    destruct (q >? Product.stock p); [discriminate |]. now intros [= <-].
Qed.

Lemma has_id_effect c ws p p' productId :
  effect c ws p = Some p' -> has_id productId p' = has_id productId p.
Proof. intros H. unfold has_id. now rewrite (effect_id _ _ _ _ H). Qed.

(** A request that addresses nobody still addresses nobody after another
    request, and one that addresses [x] at position [n] still does after a
    request that rewrote another position. *)
Lemma run_then_unknown c1 c2 st :
  (forall x, x ∈ products st -> has_id (call_id c1) x = false) ->
  snd (run c1 (snd (run c2 st))) = snd (run c2 st).
Proof.
  intros Hall. apply run_store_unknown.
  destruct (run_store_cases c2 st) as [-> | (m & r & r' & Hm & -> & Hrw)];
    [exact Hall |].
  cbn [products]. apply (insert_keeps_none _ _ m r' r Hm); [| exact Hall].
  unfold has_id. now rewrite (rewrites_id _ _ _ _ Hrw).
Qed.

(** X24: independent requests commute: two mutation calls that address
    different product ids, or of which one is an [updateDemand] and the
    other a [transferStock] (even for the same product), leave the same
    store in either order, whatever their arguments and whether or not
    they are refused. *)
Theorem independent_calls_commute :
  forall c1 c2 st,
    independent c1 c2 ->
    snd (run c2 (snd (run c1 st))) = snd (run c1 (snd (run c2 st))).
Proof.
  intros c1 c2 st Hind.
  destruct (findIndex_cases (has_id (call_id c1)) (products st))
    as [[_ Hall1] | (n & p & _ & Hm1)].
  { rewrite (run_then_unknown c1 c2 st Hall1).
    now rewrite (run_store_unknown c1 st Hall1). }
  destruct (findIndex_cases (has_id (call_id c2)) (products st))
    as [[_ Hall2] | (m & r & _ & Hm2)].
  { rewrite (run_then_unknown c2 c1 st Hall2).
    now rewrite (run_store_unknown c2 st Hall2). }
  pose proof Hm1 as (Hn & Hfp & _). pose proof Hm2 as (Hmr & Hfr & _).
  destruct (decide (n = m)) as [-> | Hnm].
  - assert (r = p) as -> by congruence.
    destruct Hind as [Hids | Hkinds].
    { apply has_id_true in Hfp, Hfr. congruence. }
    rewrite (run_store_known c1 st m p Hm1), (run_store_known c2 st m p Hm2).
    destruct c1 as [id1 d | id1 fromW toW q];
      destruct c2 as [id2 d' | id2 fromW' toW' q']; try contradiction;
      cbn [effect call_id] in *.
    + set (u := UpdateDemand id1 d).
      set (t := TransferStock id2 fromW' toW' q').
      set (p1 := Product.set_demand d p).
      assert (Hm' : first_match (has_id (call_id t))
                      (products (mkStore (warehouses st)
                                   (<[m := p1]> (products st)))) m p1)
        by (cbn [products call_id]; eapply first_match_insert; eauto).
      rewrite (run_store_known t _ m p1 Hm').
      cbn [effect warehouses products Product.warehouseId Product.stock
           Product.set_demand p1 t].
      destruct (negb _); [now rewrite (run_store_known u st m p Hm1) |].
      destruct (getWarehouseById (warehouses st) toW');
        [| now rewrite (run_store_known u st m p Hm1)].
      destruct (q' >? Product.stock p);
        [now rewrite (run_store_known u st m p Hm1) |].
      set (p2 := Product.set_stock q' (Product.set_warehouseId toW' p)).
      assert (Hm'' : first_match (has_id (call_id u))
                       (products (mkStore (warehouses st)
                                    (<[m := p2]> (products st)))) m p2)
        by (cbn [products call_id]; eapply first_match_insert; eauto).
      rewrite (run_store_known u _ m p2 Hm'').
      cbn [effect warehouses products u]. now rewrite !list_insert_insert_eq.
    + set (t := TransferStock id1 fromW toW q). set (u := UpdateDemand id2 d').
      set (p2 := Product.set_demand d' p).
      assert (Hm' : first_match (has_id (call_id t))
                      (products (mkStore (warehouses st)
                                   (<[m := p2]> (products st)))) m p2)
        by (cbn [products call_id]; eapply first_match_insert; eauto).
      rewrite (run_store_known t _ m p2 Hm').
      cbn [effect warehouses products Product.warehouseId Product.stock
           Product.set_demand p2 t].
      destruct (negb _); [now rewrite (run_store_known u st m p Hm2) |].
      destruct (getWarehouseById (warehouses st) toW);
        [| now rewrite (run_store_known u st m p Hm2)].
      destruct (q >? Product.stock p);
        [now rewrite (run_store_known u st m p Hm2) |].
      set (p1 := Product.set_stock q (Product.set_warehouseId toW p)).
      assert (Hm'' : first_match (has_id (call_id u))
                       (products (mkStore (warehouses st)
                                    (<[m := p1]> (products st)))) m p1)
        by (cbn [products call_id]; eapply first_match_insert; eauto).
      rewrite (run_store_known u _ m p1 Hm'').
      cbn [effect warehouses products u]. now rewrite !list_insert_insert_eq.
  - rewrite (run_store_known c1 st n p Hm1), (run_store_known c2 st m r Hm2).
    destruct (effect c1 (warehouses st) p) as [p1 |] eqn:He1;
      destruct (effect c2 (warehouses st) r) as [r2 |] eqn:He2.
    + assert (Hm2' : first_match (has_id (call_id c2))
                       (products (mkStore (warehouses st)
                                    (<[n := p1]> (products st)))) m r)
        by (cbn [products];
            apply (insert_keeps_first _ _ n p1 p m r Hn); auto;
            eapply has_id_effect, He1).
      assert (Hm1' : first_match (has_id (call_id c1))
                       (products (mkStore (warehouses st)
                                    (<[m := r2]> (products st)))) n p)
        by (cbn [products];
            apply (insert_keeps_first _ _ m r2 r n p Hmr); auto;
            eapply has_id_effect, He2).
      rewrite (run_store_known c2 _ m r Hm2'),
        (run_store_known c1 _ n p Hm1').
      cbn [warehouses products]. rewrite He1, He2.
      now rewrite list_insert_insert_ne by auto.
    + assert (Hm2' : first_match (has_id (call_id c2))
                       (products (mkStore (warehouses st)
                                    (<[n := p1]> (products st)))) m r)
        by (cbn [products];
            apply (insert_keeps_first _ _ n p1 p m r Hn); auto;
            eapply has_id_effect, He1).
      rewrite (run_store_known c2 _ m r Hm2'). cbn [warehouses]. rewrite He2.
      now rewrite (run_store_known c1 st n p Hm1), He1.
    + assert (Hm1' : first_match (has_id (call_id c1))
                       (products (mkStore (warehouses st)
                                    (<[m := r2]> (products st)))) n p)
        by (cbn [products];
            apply (insert_keeps_first _ _ m r2 r n p Hmr); auto;
            eapply has_id_effect, He2).
      rewrite (run_store_known c1 _ n p Hm1'). cbn [warehouses]. rewrite He1.
      now rewrite (run_store_known c2 st m r Hm2), He2.
    + now rewrite (run_store_known c1 st n p Hm1), He1,
        (run_store_known c2 st m r Hm2), He2.
Qed.

Lemma independent_calls_commute_witness :
  snd (run (TransferStock "P-1001" "BLR-A" "BLR-B" 100)
         (snd (run (UpdateDemand "P-1001" 90) seedStore)))
  = snd (run (UpdateDemand "P-1001" 90)
           (snd (run (TransferStock "P-1001" "BLR-A" "BLR-B" 100) seedStore))).
Proof.
  apply (independent_calls_commute (UpdateDemand "P-1001" 90)
           (TransferStock "P-1001" "BLR-A" "BLR-B" 100) seedStore).
  right. exact I.
Defined.

(** X25: transfers compose: when a transfer from [a] to [b] has succeeded
    and a transfer of the same product from [b] on to [c] succeeds on the
    store it left, the second call gives the result and leaves the store
    that the direct transfer from [a] to [c] of the second quantity gives
    on the first store: only the last destination and quantity remain. *)
Theorem transfers_compose :
  forall st productId a b c q1 q2 v1 v2,
    fst (Mutation.transferStock productId a b q1 st) = Returned v1 ->
    let st1 := snd (Mutation.transferStock productId a b q1 st) in
    fst (Mutation.transferStock productId b c q2 st1) = Returned v2 ->
    Mutation.transferStock productId a c q2 st
    = (Returned v2, snd (Mutation.transferStock productId b c q2 st1)).
Proof.
  intros st productId a b c q1 q2 v1 v2 Hv1 st1 Hv2. subst st1.
  destruct (findIndex_cases (has_id productId) (products st))
    as [[Hidx _] | (n & p & _ & Hm)].
  { rewrite transferStock_unknown in Hv1 by exact Hidx. discriminate. }
  rewrite (transferStock_known st productId a b q1 n p Hm) in Hv1, Hv2 |- *.
  rewrite (transferStock_known st productId a c q2 n p Hm).
  destruct (String.eqb_spec (Product.warehouseId p) a) as [Ha | ?];
    [| discriminate].
  cbn [negb] in *.
  destruct (getWarehouseById (warehouses st) b) as [wb |]; [| discriminate].
  destruct (Z.gtb_spec q1 (Product.stock p)) as [? | Hq1]; [discriminate |].
  cbv zeta in *. cbn [fst snd] in *.
  set (p1 := Product.set_stock q1 (Product.set_warehouseId b p)) in *.
  assert (Hm1 : first_match (has_id productId)
                  (products (mkStore (warehouses st)
                               (<[n := p1]> (products st)))) n p1).
  { cbn [products]. eapply first_match_insert; [exact Hm |].
    destruct Hm as (_ & Hid & _). exact Hid. }
  rewrite (transferStock_known _ productId b c q2 n p1 Hm1) in Hv2 |- *.
  cbn [warehouses products Product.warehouseId Product.stock Product.demand
       Product.set_stock Product.set_warehouseId p1] in *.
  rewrite String.eqb_refl in *. cbn [negb] in *.
  destruct (getWarehouseById (warehouses st) c) as [wc |]; [| discriminate].
  destruct (Z.gtb_spec q2 q1) as [? | Hq2]; [discriminate |].
  destruct (Z.gtb_spec q2 (Product.stock p)) as [? | _]; [lia |].
  cbv zeta in *. simpl in Hv2. injection Hv2 as <-.
  cbn [snd]. now rewrite list_insert_insert_eq.
Qed.

Lemma transfers_compose_witness :
  Mutation.transferStock "P-1001" "BLR-A" "PNQ-C" 60 seedStore
  = (Returned
       (spread (Product.mk "P-1001" "12mm Hex Bolt" "HEX-12-100" "PNQ-C" 60 120)
          (Some (Warehouse.mk "PNQ-C" "Pune Warehouse C")) "critical"),
     snd (Mutation.transferStock "P-1001" "BLR-B" "PNQ-C" 60
            (snd (Mutation.transferStock "P-1001" "BLR-A" "BLR-B" 100
                    seedStore)))).
Proof.
  eapply (transfers_compose seedStore "P-1001" "BLR-A" "BLR-B" "PNQ-C" 100 60).
  - reflexivity.
  - reflexivity.
Defined.

(** ** Instances on the seed data *)

Lemma warehouses_query_stable_witness :
  Warehouse.mk "BLR-A" "Bangalore Warehouse A" ∈ Query.warehouses seedStore.
Proof.
  apply (proj1 (proj2 (warehouses_query_stable [] seedStore))
           (UpdateDemand "P-1002" 40)
           (spread
              (Product.mk "P-1002" "Steel Washer" "WSR-08-500" "BLR-A" 50 40)
              (Some (Warehouse.mk "BLR-A" "Bangalore Warehouse A"))
              "healthy")).
  - reflexivity.
  - reflexivity.
Defined.

Lemma products_throws_iff_null_witness :
  exists conn,
    Query.products ascii_toLowerCase seedStore Absent
      (Given (PaginationInput.mk (Given (-7)) Null)) = Returned conn.
Proof.
  apply (products_throws_iff_null ascii_toLowerCase seedStore Absent
           (Given (PaginationInput.mk (Given (-7)) Null))); discriminate.
Defined.

Lemma kpis_length_witness :
  length (fst (Query.kpis nat counter_isoDateDaysAgo counter_floorRandom
                 "90d" 0%nat)) = 30%nat.
Proof.
  apply (kpis_length nat counter_isoDateDaysAgo counter_floorRandom
           "90d" 0%nat); discriminate.
Defined.
